(** * Financial RAG analyst: a shallow embedding of the ingestion and chat core

    The development follows the two pipelines of the repository:
    - [Legacy]  : [src/src/ingest.py], [src/src/summarize.py], [src/src/rag.py]
                  (the single-process Streamlit application, [src/app.py]);
    - [Backend] : [src/backend/services/*.py] and [src/backend/routers/*.py]
                  (the FastAPI service).

    Python strings are modelled as [string]; a character is a code point
    below 256.  External collaborators (the PDF parser, the text splitter,
    the vision and chat models, the embedding model) are parameters of the
    functions that call them. *)

From Stdlib Require Import String Ascii List Bool Arith Lia.
From Stdlib Require Import Sorting.Sorted Sorting.Permutation.
From stdpp Require Import base option gmap strings list pretty.

Import ListNotations.


(** ** Python values and exceptions *)

Module Py.

(** The exceptions the modelled code can raise or let through. *)
Inductive Exception :=
| FileNotFoundError (path : string)
| NotADirectoryError (path : string)
| IsADirectoryError (path : string)
| KeyError (key : string)
| ExternalError (msg : string)
| HTTPException (status_code : nat) (detail : string).

(** [str(e)] *)
Definition exc_str (e : Exception) : string :=
  match e with
  | FileNotFoundError p => "[Errno 2] No such file or directory: '" +:+ p +:+ "'"
  | NotADirectoryError p => "[Errno 20] Not a directory: '" +:+ p +:+ "'"
  | IsADirectoryError p => "[Errno 21] Is a directory: '" +:+ p +:+ "'"
  | KeyError k => "'" +:+ k +:+ "'"
  | ExternalError m => m
  | HTTPException c d => d
  end.

(** A computation either returns or raises. *)
Inductive Result (A : Type) :=
| Ok (a : A)
| Raise (e : Exception).
Arguments Ok {A} a.
Arguments Raise {A} e.

#[global] Instance result_ret : MRet Result := fun A a => Ok a.
#[global] Instance result_bind : MBind Result :=
  fun A B f m => match m with Ok a => f a | Raise e => Raise e end.
#[global] Instance result_fmap : FMap Result :=
  fun A B f m => match m with Ok a => Ok (f a) | Raise e => Raise e end.

Definition returns {A} (r : Result A) : bool :=
  match r with Ok _ => true | Raise _ => false end.

(** [len(s)] *)
Definition len (s : string) : nat := String.length s.

(** [s[:n]] *)
Definition slice_to (n : nat) (s : string) : string := substring 0 n s.

(** [sub in s] *)
Definition str_in (sub s : string) : bool :=
  match index 0 sub s with Some _ => true | None => false end.

(** [s.startswith(p)] *)
Definition startswith (p s : string) : bool := String.prefix p s.

(** [s.endswith(suf)] *)
Definition endswith (suf s : string) : bool :=
  (len suf <=? len s) &&
  String.eqb (substring (len s - len suf) (len suf) s) suf.

(** [s.endswith((a, b, ...))] *)
Definition endswith_any (sufs : list string) (s : string) : bool :=
  existsb (fun suf => endswith suf s) sufs.

(** [c.isspace()] for a code point below 256. *)
Definition isspace (c : ascii) : bool :=
  let n := nat_of_ascii c in
  ((9 <=? n) && (n <=? 13)) || ((28 <=? n) && (n <=? 32))
  || (n =? 133) || (n =? 160).

(** [c.lower()] for a code point below 256. *)
Definition lower_char (c : ascii) : ascii :=
  let n := nat_of_ascii c in
  if ((65 <=? n) && (n <=? 90))
     || ((192 <=? n) && (n <=? 222) && negb (n =? 215))
  then ascii_of_nat (n + 32) else c.

(** [s.lower()] *)
Fixpoint lower (s : string) : string :=
  match s with
  | EmptyString => EmptyString
  | String c s' => String (lower_char c) (lower s')
  end.

(** [s.lstrip()] *)
Fixpoint lstrip (s : string) : string :=
  match s with
  | EmptyString => EmptyString
  | String c s' => if isspace c then lstrip s' else s
  end.

(** [s.rstrip()] *)
Fixpoint rstrip (s : string) : string :=
  match s with
  | EmptyString => EmptyString
  | String c s' =>
      match rstrip s' with
      | EmptyString => if isspace c then EmptyString else String c EmptyString
      | r => String c r
      end
  end.

(** [s.strip()] *)
Definition strip (s : string) : string := rstrip (lstrip s).

(** [os.path.join(a, p)] of [posixpath]. *)
Definition os_path_join (a p : string) : string :=
  if startswith "/" p then p
  else if String.eqb a "" || endswith "/" a then a +:+ p
  else a +:+ "/" +:+ p.

(** Insertion into a list sorted by code points. *)
Fixpoint insert_sorted (x : string) (l : list string) : list string :=
  match l with
  | [] => [x]
  | y :: l' => if String.leb x y then x :: y :: l' else y :: insert_sorted x l'
  end.

(** [l.sort()] on a list of strings. *)
Fixpoint sort (l : list string) : list string :=
  match l with
  | [] => []
  | x :: l' => insert_sorted x (sort l')
  end.

(** A filesystem as the modelled code sees it. *)
Inductive Node :=
| File (bytes : string)
| Dir (entries : list string).

Definition FileSystem := string -> option Node.

(** [os.path.exists(p)] *)
Definition os_path_exists (fs : FileSystem) (p : string) : bool :=
  match fs p with Some _ => true | None => false end.

(** [os.listdir(p)] *)
Definition os_listdir (fs : FileSystem) (p : string) : Result (list string) :=
  match fs p with
  | Some (Dir entries) => Ok entries
  | Some (File _) => Raise (NotADirectoryError p)
  | None => Raise (FileNotFoundError p)
  end.

(** [open(p, "rb").read()] *)
Definition read_bytes (fs : FileSystem) (p : string) : Result string :=
  match fs p with
  | Some (File b) => Ok b
  | Some (Dir _) => Raise (IsADirectoryError p)
  | None => Raise (FileNotFoundError p)
  end.

(** [os.makedirs(p, exist_ok=True)] on a path whose parent exists. *)
Definition os_makedirs (fs : FileSystem) (p : string) : Result FileSystem :=
  match fs p with
  | Some (Dir _) => Ok fs
  | Some (File _) => Raise (ExternalError "FileExistsError")
  | None => Ok (fun q => if String.eqb q p then Some (Dir []) else fs q)
  end.

End Py.

Import Py.

(** ** The external collaborators *)

Module LangChain.

(** [langchain_core.documents.Document] *)
Record Document := {
  page_content : string;
  metadata : gmap string string
}.

(** [HuggingFaceEmbeddings(model_name=...)] *)
Record HuggingFaceEmbeddings := {
  model_name : string
}.

(** [RecursiveCharacterTextSplitter(chunk_size=..., chunk_overlap=..., separators=...)] *)
Record RecursiveCharacterTextSplitter := {
  chunk_size : nat;
  chunk_overlap : nat;
  separators : list string
}.

(** An element returned by [partition_pdf]: [str(type(element))] and [str(element)]. *)
Record Element := {
  type_repr : string;
  text : string
}.

(** The vector store a build returns: the documents with their vectors. *)
Record Chroma (Vector : Type) := {
  persist_directory : string;
  embedding_function : HuggingFaceEmbeddings;
  collection : list (Document * Vector)
}.
Arguments persist_directory {Vector} _.
Arguments embedding_function {Vector} _.
Arguments collection {Vector} _.

(** [vectorstore.as_retriever(search_type=..., search_kwargs=...)];
    [lambda_mult] is kept in tenths. *)
Record Retriever := {
  store_path : string;
  query_embedding : HuggingFaceEmbeddings;
  search_type : string;
  k : nat;
  fetch_k : option nat;
  lambda_mult_tenths : option nat
}.

(** A chat message of a [ChatMessageHistory]. *)
Inductive Message :=
| HumanMessage (content : string)
| AIMessage (content : string).

(** The value a retrieval chain returns: [response["answer"]] and
    [response.get("context")]. *)
Record ChainResponse := {
  answer : string;
  context : option (list Document)
}.

(** Everything the pipelines call and do not define. *)
Record Externals := {
  Vector : Type;
  partition_pdf : FileSystem -> string -> string -> Result (list Element * FileSystem);
  split_text : RecursiveCharacterTextSplitter -> string -> list string;
  b64encode : string -> string;
  (** the vision model: number of earlier calls of the run, prompt, image url *)
  vision_invoke : nat -> string -> string -> Result string;
  embed : HuggingFaceEmbeddings -> string -> Vector;
  (** the retrieval chain: retriever, prior messages, input *)
  chain_invoke : Retriever -> list Message -> string -> Result ChainResponse
}.

(** [Chroma.from_documents(documents, embedding, persist_directory)] into an
    empty directory. *)
Definition Chroma_from_documents (ext : Externals) (documents : list Document)
    (embedding : HuggingFaceEmbeddings) (path : string) : Chroma (Vector ext) :=
  {| persist_directory := path;
     embedding_function := embedding;
     collection := map (fun d => (d, embed ext embedding (page_content d))) documents |}.

End LangChain.

Import LangChain.

(** The prompt sent with every image (both pipelines). *)
Definition image_prompt : string :=
  "You are a financial analyst. Analyze this chart or graph. 
                    Describe the trends, axis labels, and numeric values.
                    If it's not a chart, return 'skip'.".

(** [encode_image(image_path)] *)
Definition encode_image (ext : Externals) (fs : FileSystem) (image_path : string)
    : Result string :=
  bytes ← read_bytes fs image_path;
  mret (b64encode ext bytes).

(** The loop over [images] of [generate_image_summaries], with the two lists
    it appends to; [n] counts the model calls made so far. *)
Fixpoint summarize_loop (ext : Externals) (fs : FileSystem) (image_dir : string)
    (n : nat) (images : list string) (image_summaries image_paths : list string)
    : Result (list string * list string) :=
  match images with
  | [] => Ok (image_summaries, image_paths)
  | img_file :: rest =>
      let img_path := os_path_join image_dir img_file in
      base64_image ← encode_image ext fs img_path;
      msg ← vision_invoke ext n image_prompt ("data:image/jpeg;base64," +:+ base64_image);
      if negb (String.eqb (lower (strip msg)) "skip")
      then summarize_loop ext fs image_dir (S n) rest
             (image_summaries ++ [msg]) (image_paths ++ [img_path])
      else summarize_loop ext fs image_dir (S n) rest image_summaries image_paths
  end.

(** The partition of the parsed elements ([load_pdf_elements], both pipelines):
    [(raw_text, table_elements)]. *)
Fixpoint separate_tables (elements : list Element) (raw_text : string)
    (table_elements : list string) : string * list string :=
  match elements with
  | [] => (raw_text, table_elements)
  | element :: rest =>
      if str_in "Table" (type_repr element)
      then separate_tables rest raw_text (table_elements ++ [text element])
      else separate_tables rest (raw_text +:+ text element +:+ "

") table_elements
  end.

(** ** The Streamlit pipeline: [src/src/*.py] *)

Module Legacy.

(** [src/src/ingest.py] *)
Definition load_pdf_elements (ext : Externals) (fs : FileSystem)
    (file_path output_image_dir : string)
    : Result (list string * list string * FileSystem) :=
  '(raw_pdf_elements, fs') ← partition_pdf ext fs file_path output_image_dir;
  let '(raw_text, table_elements) := separate_tables raw_pdf_elements "" [] in
  let text_splitter :=
    {| chunk_size := 2000; chunk_overlap := 400;
       separators := ["

"; "
"; " "; ""] |} in
  let text_elements := split_text ext text_splitter raw_text in
  mret (text_elements, table_elements, fs').

(** [src/src/summarize.py] *)
Definition generate_image_summaries (ext : Externals) (fs : FileSystem)
    (image_dir : string) : Result (list string * list string) :=
  entries ← os_listdir fs image_dir;
  let images := sort (List.filter (endswith ".jpg") entries) in
  summarize_loop ext fs image_dir 0 images [] [].

(** [src/src/rag.py]: the image documents are built and not appended. *)
Definition create_vector_db (ext : Externals) (texts image_summaries image_paths : list string)
    (db_path : string) : Chroma (Vector ext) :=
  let documents :=
    map (fun t => {| page_content := t; metadata := {[ "source" := "text" ]} |}) texts in
  let embedding_function := {| model_name := "all-MiniLM-L6-v2" |} in
  Chroma_from_documents ext documents embedding_function db_path.

(** [src/src/rag.py]: the store reopened and its retriever. *)
Definition get_rag_chain (db_path : string) : Retriever :=
  let embedding_function := {| model_name := "all-MiniLM-L6-v2" |} in
  {| store_path := db_path;
     query_embedding := embedding_function;
     search_type := "similarity";
     k := 10;
     fetch_k := None;
     lambda_mult_tenths := None |}.

End Legacy.

(** ** The FastAPI service: [src/backend/services/*.py], [src/backend/routers/*.py] *)

Module Backend.

(** *** [services/ingest.py] *)

Definition load_pdf_elements (ext : Externals) (fs : FileSystem)
    (file_path output_image_dir : string)
    : Result (list string * list string * FileSystem) :=
  '(raw_pdf_elements, fs') ← partition_pdf ext fs file_path output_image_dir;
  let '(raw_text, table_elements) := separate_tables raw_pdf_elements "" [] in
  let text_splitter :=
    {| chunk_size := 1500; chunk_overlap := 300;
       separators := ["

"; "
"; " "; ""] |} in
  let text_elements := split_text ext text_splitter raw_text in
  let text_elements := List.filter (fun t => 100 <? len t) text_elements in
  mret (text_elements, table_elements, fs').

(** *** [services/summarize.py] *)

Definition generate_image_summaries (ext : Externals) (fs : FileSystem)
    (image_dir : string) : Result (list string * list string) :=
  if negb (os_path_exists fs image_dir) then Ok ([], [])
  else
    entries ← os_listdir fs image_dir;
    let images :=
      sort (List.filter (endswith_any [".jpg"; ".png"; ".jpeg"]) entries) in
    summarize_loop ext fs image_dir 0 images [] [].

(** *** [services/rag.py] *)

(** [get_embedding_function()], with the module global [_embedding_function]
    passed in and out. *)
Definition get_embedding_function (g : option HuggingFaceEmbeddings)
    : HuggingFaceEmbeddings * option HuggingFaceEmbeddings :=
  match g with
  | None =>
      let e := {| model_name := "all-MiniLM-L6-v2" |} in (e, Some e)
  | Some e => (e, Some e)
  end.

Definition text_document (t : string) : Document :=
  {| page_content := t; metadata := {[ "source" := "text" ]} |}.

Definition image_document (summary path : string) : Document :=
  {| page_content := summary;
     metadata := <[ "image_path" := path ]> {[ "source" := "image" ]} |}.

Definition create_vector_db (ext : Externals) (texts image_summaries image_paths : list string)
    (db_path : string) (g : option HuggingFaceEmbeddings)
    : Chroma (Vector ext) * option HuggingFaceEmbeddings :=
  let documents := map text_document texts in
  let documents :=
    fold_left (fun docs '(summary, path) => docs ++ [image_document summary path])
      (combine image_summaries image_paths) documents in
  let '(embedding_function, g') := get_embedding_function g in
  (Chroma_from_documents ext documents embedding_function db_path, g').

Definition get_rag_chain (db_path : string) (g : option HuggingFaceEmbeddings)
    : Retriever * option HuggingFaceEmbeddings :=
  let '(embedding_function, g') := get_embedding_function g in
  ({| store_path := db_path;
      query_embedding := embedding_function;
      search_type := "mmr";
      k := 12;
      fetch_k := Some 30;
      lambda_mult_tenths := Some 7 |}, g').

(** *** The process state of the routers *)

(** An entry of [session["chat_history"]]. *)
Record Turn := {
  role : string;
  content : string
}.

(** A value of the [sessions] dict; the keys set only later are optional. *)
Record Session := {
  status : string;
  message : string;
  temp_dir : string;
  file_path : string;
  chat_history : option (list Turn);
  db_path : option string;
  document_name : option string
}.

Section WithExternals.
Context (ext : Externals).

(** The module globals [sessions] ([routers/upload.py]), [message_stores]
    ([routers/chat.py]) and [_embedding_function] ([services/rag.py]), the disk,
    the persisted vector stores by directory, and the log of the calls made to
    the retrieval chain (store directory, input). *)
Record World := {
  sessions : gmap string Session;
  message_stores : gmap string (list Message);
  _embedding_function : option HuggingFaceEmbeddings;
  disk : FileSystem;
  vector_dbs : gmap string (list (Document * Vector ext));
  chain_log : list (string * string)
}.

(** A handler: it mutates the globals and returns or raises. *)
Definition Handler (A : Type) : Type := World -> Result A * World.

Definition h_ret {A} (a : A) : Handler A := fun w => (Ok a, w).

Definition h_raise {A} (e : Exception) : Handler A := fun w => (Raise e, w).

Definition h_bind {A B} (m : Handler A) (f : A -> Handler B) : Handler B :=
  fun w => match m w with
           | (Ok a, w') => f a w'
           | (Raise e, w') => (Raise e, w')
           end.

(** [try: m  except Exception as e: handler(e)] *)
Definition try_except {A} (m : Handler A) (handler : Exception -> Handler A) : Handler A :=
  fun w => match m w with
           | (Ok a, w') => (Ok a, w')
           | (Raise e, w') => handler e w'
           end.

Definition lift {A} (r : Result A) : Handler A := fun w => (r, w).

End WithExternals.

Arguments sessions {ext} _.
Arguments message_stores {ext} _.
Arguments _embedding_function {ext} _.
Arguments disk {ext} _.
Arguments vector_dbs {ext} _.
Arguments chain_log {ext} _.
Arguments h_ret {ext A} _ _.
Arguments h_raise {ext A} _ _.
Arguments h_bind {ext A B} _ _ _.
Arguments try_except {ext A} _ _ _.
Arguments lift {ext A} _ _.

#[global] Instance handler_ret ext : MRet (Handler ext) := fun A a => h_ret a.
#[global] Instance handler_bind ext : MBind (Handler ext) := fun A B f m => h_bind m f.

(** *** [routers/upload.py] *)

Definition set_status (v : string) (s : Session) : Session :=
  {| status := v; message := message s; temp_dir := temp_dir s;
     file_path := file_path s; chat_history := chat_history s;
     db_path := db_path s; document_name := document_name s |}.

Definition set_message (v : string) (s : Session) : Session :=
  {| status := status s; message := v; temp_dir := temp_dir s;
     file_path := file_path s; chat_history := chat_history s;
     db_path := db_path s; document_name := document_name s |}.

Definition set_db_path (v : string) (s : Session) : Session :=
  {| status := status s; message := message s; temp_dir := temp_dir s;
     file_path := file_path s; chat_history := chat_history s;
     db_path := Some v; document_name := document_name s |}.

Definition set_document_name (v : string) (s : Session) : Session :=
  {| status := status s; message := message s; temp_dir := temp_dir s;
     file_path := file_path s; chat_history := chat_history s;
     db_path := db_path s; document_name := Some v |}.

Definition set_chat_history (v : list Turn) (s : Session) : Session :=
  {| status := status s; message := message s; temp_dir := temp_dir s;
     file_path := file_path s; chat_history := Some v;
     db_path := db_path s; document_name := document_name s |}.

Section Routers.
Context (ext : Externals).

Definition with_sessions (v : gmap string Session) (w : World ext) : World ext :=
  {| sessions := v; message_stores := message_stores w;
     _embedding_function := _embedding_function w; disk := disk w;
     vector_dbs := vector_dbs w; chain_log := chain_log w |}.

Definition with_message_stores (v : gmap string (list Message)) (w : World ext) : World ext :=
  {| sessions := sessions w; message_stores := v;
     _embedding_function := _embedding_function w; disk := disk w;
     vector_dbs := vector_dbs w; chain_log := chain_log w |}.

Definition with_embedding_function (v : option HuggingFaceEmbeddings) (w : World ext)
    : World ext :=
  {| sessions := sessions w; message_stores := message_stores w;
     _embedding_function := v; disk := disk w;
     vector_dbs := vector_dbs w; chain_log := chain_log w |}.

Definition with_disk (v : FileSystem) (w : World ext) : World ext :=
  {| sessions := sessions w; message_stores := message_stores w;
     _embedding_function := _embedding_function w; disk := v;
     vector_dbs := vector_dbs w; chain_log := chain_log w |}.

Definition with_vector_dbs (v : gmap string (list (Document * Vector ext))) (w : World ext)
    : World ext :=
  {| sessions := sessions w; message_stores := message_stores w;
     _embedding_function := _embedding_function w; disk := disk w;
     vector_dbs := v; chain_log := chain_log w |}.

Definition with_chain_log (v : list (string * string)) (w : World ext) : World ext :=
  {| sessions := sessions w; message_stores := message_stores w;
     _embedding_function := _embedding_function w; disk := disk w;
     vector_dbs := vector_dbs w; chain_log := v |}.

(** [sessions[session_id][key] = value]: a [KeyError] when the id is not there. *)
Definition update_session (session_id : string) (f : Session -> Session)
    : Handler ext unit :=
  fun w => match sessions w !! session_id with
           | None => (Raise (KeyError session_id), w)
           | Some s => (Ok tt, with_sessions (<[session_id := f s]> (sessions w)) w)
           end.

(** The pipeline functions run against the disk of the world. *)
Definition run_makedirs (p : string) : Handler ext unit :=
  fun w => match os_makedirs (disk w) p with
           | Ok fs' => (Ok tt, with_disk fs' w)
           | Raise e => (Raise e, w)
           end.

Definition run_load_pdf_elements (file_path output_image_dir : string)
    : Handler ext (list string * list string) :=
  fun w => match load_pdf_elements ext (disk w) file_path output_image_dir with
           | Ok (texts, tables, fs') => (Ok (texts, tables), with_disk fs' w)
           | Raise e => (Raise e, w)
           end.

Definition run_generate_image_summaries (image_dir : string)
    : Handler ext (list string * list string) :=
  fun w => (generate_image_summaries ext (disk w) image_dir, w).

(** [create_vector_db(...)]: the store is persisted under [db_path], added to
    what the directory already holds. *)
Definition run_create_vector_db (texts image_summaries image_paths : list string)
    (db_path : string) : Handler ext unit :=
  fun w =>
    let '(store, g') :=
      create_vector_db ext texts image_summaries image_paths db_path
        (_embedding_function w) in
    (Ok tt,
     with_vector_dbs
       (<[db_path := default [] (vector_dbs w !! db_path) ++ collection store]>
          (vector_dbs w))
       (with_embedding_function g' w)).

(** Lines 34-35 of [process_pdf_background]. *)
Definition bg_begin (session_id : string) : Handler ext unit :=
  _ ← update_session session_id (set_status "processing");
  update_session session_id (set_message "Extracting text and images...").

(** Lines 38-44: the image directory, the parse, the next message. *)
Definition bg_parse (session_id file_path temp_dir : string)
    : Handler ext (list string * list string) :=
  let temp_img_dir := os_path_join temp_dir "images" in
  _ ← run_makedirs temp_img_dir;
  r ← run_load_pdf_elements file_path temp_img_dir;
  _ ← update_session session_id (set_message "Analyzing charts with AI...");
  mret r.

(** Lines 45-47: the image summaries, the next message. *)
Definition bg_summarize (session_id temp_dir : string)
    : Handler ext (list string * list string) :=
  let temp_img_dir := os_path_join temp_dir "images" in
  r ← run_generate_image_summaries temp_img_dir;
  _ ← update_session session_id (set_message "Building knowledge base...");
  mret r.

(** Lines 48-54: the store is built from [texts] and the image summaries
    (the tables returned by the parse are not passed on), then the session
    is marked ready. *)
Definition bg_build (session_id file_name temp_dir : string)
    (texts img_summaries img_paths : list string) : Handler ext unit :=
  let db_path := os_path_join temp_dir "chroma_db" in
  _ ← run_create_vector_db texts img_summaries img_paths db_path;
  _ ← update_session session_id (set_status "ready");
  _ ← update_session session_id (set_message "Ready for questions!");
  _ ← update_session session_id (set_db_path db_path);
  update_session session_id (set_document_name file_name).

(** Lines 56-58: the [except] branch. *)
Definition bg_except (session_id : string) (e : Exception) : Handler ext unit :=
  _ ← update_session session_id (set_status "error");
  update_session session_id (set_message (exc_str e)).

Definition process_pdf_background (session_id file_path file_name temp_dir : string)
    : Handler ext unit :=
  try_except
    (_ ← bg_begin session_id;
     '(texts, tables) ← bg_parse session_id file_path temp_dir;
     '(img_summaries, img_paths) ← bg_summarize session_id temp_dir;
     bg_build session_id file_name temp_dir texts img_summaries img_paths)
    (bg_except session_id).

Record UploadResponse := {
  up_session_id : string;
  up_message : string
}.

(** [upload_pdf]: [session_id] and [temp_dir] are the values [uuid.uuid4()]
    and [tempfile.mkdtemp()] return; the background task is scheduled by the
    caller (see [sys_step]). *)
Definition upload_pdf (session_id temp_dir : string) (filename content : string)
    : Handler ext UploadResponse :=
  fun w =>
    if negb (endswith ".pdf" filename)
    then (Raise (HTTPException 400 "Only PDF files are allowed"), w)
    else
      let file_path := os_path_join temp_dir filename in
      let disk' := fun q =>
        if String.eqb q file_path then Some (File content)
        else if String.eqb q temp_dir then Some (Dir [filename])
        else disk w q in
      let session :=
        {| status := "uploading";
           message := "File uploaded, starting processing...";
           temp_dir := temp_dir;
           file_path := file_path;
           chat_history := Some [];
           db_path := None;
           document_name := None |} in
      (Ok {| up_session_id := session_id;
             up_message := "Upload successful. Processing started." |},
       with_sessions (<[session_id := session]> (sessions w)) (with_disk disk' w)).

Record SessionStatus := {
  st_session_id : string;
  st_status : string;
  st_message : option string;
  st_document_name : option string
}.

Definition get_status (session_id : string) : Handler ext SessionStatus :=
  fun w => match sessions w !! session_id with
           | None => (Raise (HTTPException 404 "Session not found"), w)
           | Some session =>
               (Ok {| st_session_id := session_id;
                      st_status := status session;
                      st_message := Some (message session);
                      st_document_name := document_name session |}, w)
           end.

(** [shutil.rmtree(p, ignore_errors=True)] *)
Definition rmtree (fs : FileSystem) (p : string) : FileSystem :=
  fun q => if String.eqb q p || startswith (p +:+ "/") q then None else fs q.

Definition delete_session (session_id : string) : Handler ext string :=
  fun w => match sessions w !! session_id with
           | None => (Raise (HTTPException 404 "Session not found"), w)
           | Some session =>
               (Ok "Session deleted successfully",
                with_sessions (delete session_id (sessions w))
                  (with_disk (rmtree (disk w) (temp_dir session)) w))
           end.

End Routers.

Arguments with_sessions {ext} _ _.
Arguments with_message_stores {ext} _ _.
Arguments with_embedding_function {ext} _ _.
Arguments with_disk {ext} _ _.
Arguments with_vector_dbs {ext} _ _.
Arguments with_chain_log {ext} _ _.

(** *** [routers/chat.py] *)

Record ChatRequest := {
  req_session_id : string;
  req_message : string
}.

Record SourceEvidence := {
  source_type : string;
  src_content : string;
  image_path : option string
}.

Record ChatResponse := {
  resp_answer : string;
  sources : list SourceEvidence
}.

(** The content shown for a document (line 91). *)
Definition snippet (page : string) : string :=
  if 300 <? len page then slice_to 300 page +:+ "..." else page.

(** The body of the loop of lines 87-93. *)
Definition source_evidence (doc : Document) : SourceEvidence :=
  let source_type := default "unknown" (metadata doc !! "source") in
  {| source_type := source_type;
     src_content := snippet (page_content doc);
     image_path :=
       if String.eqb source_type "image" then metadata doc !! "image_path" else None |}.

(** Lines 86-98: one reference per document of the context, the first 5 kept. *)
Definition surfaced_sources (response : ChainResponse) : list SourceEvidence :=
  let sources :=
    fold_left (fun sources doc => sources ++ [source_evidence doc])
      (default [] (context response)) [] in
  firstn 5 sources.

Section Chat.
Context (ext : Externals).

(** [get_session_history(session_id)]: the messages of the history object,
    created empty when the id has none. *)
Definition get_session_history (session_id : string) : Handler ext (list Message) :=
  fun w => match message_stores w !! session_id with
           | None => (Ok [], with_message_stores (<[session_id := []]> (message_stores w)) w)
           | Some h => (Ok h, w)
           end.

(** One call of the retrieval chain, entered in the log. *)
Definition call_chain (rag_chain : Retriever) (history : list Message) (input : string)
    : Handler ext ChainResponse :=
  fun w => (chain_invoke ext rag_chain history input,
            with_chain_log (chain_log w ++ [(store_path rag_chain, input)]) w).

(** [history.add_messages(msgs)] *)
Definition add_messages (session_id : string) (msgs : list Message) : Handler ext unit :=
  fun w => (Ok tt,
            with_message_stores
              (<[session_id := default [] (message_stores w !! session_id) ++ msgs]>
                 (message_stores w)) w).

(** [RunnableWithMessageHistory(rag_chain, get_session_history, ...).invoke]:
    the history is read, the chain runs on it, and when it returns the input
    and the answer are added to the history. *)
Definition invoke_with_history (rag_chain : Retriever) (session_id input : string)
    : Handler ext ChainResponse :=
  history ← get_session_history session_id;
  response ← call_chain rag_chain history input;
  _ ← add_messages session_id [HumanMessage input; AIMessage (answer response)];
  mret response.

Definition run_get_rag_chain (db : string) : Handler ext Retriever :=
  fun w => let '(chain, g') := get_rag_chain db (_embedding_function w) in
           (Ok chain, with_embedding_function g' w).

(** Lines 80-83, on the session dict fetched at line 52. *)
Definition append_turns (user_msg answer_msg : string) (session : Session) : Session :=
  let history := default [] (chat_history session) in
  set_chat_history
    (history ++ [ {| role := "user"; content := user_msg |} ]
             ++ [ {| role := "assistant"; content := answer_msg |} ])
    session.

Definition store_turns (session_id user_msg answer_msg : string) : Handler ext unit :=
  fun w => (Ok tt, with_sessions (alter (append_turns user_msg answer_msg) session_id
                                    (sessions w)) w).

(** The [try] block of lines 60-98. *)
Definition chat_try (request : ChatRequest) (session : Session) : Handler ext ChatResponse :=
  db ← lift (match db_path session with
             | Some p => Ok p
             | None => Raise (KeyError "db_path")
             end);
  rag_chain ← run_get_rag_chain db;
  response ← invoke_with_history rag_chain (req_session_id request) (req_message request);
  _ ← store_turns (req_session_id request) (req_message request) (answer response);
  mret {| resp_answer := answer response; sources := surfaced_sources response |}.

Definition chat (request : ChatRequest) : Handler ext ChatResponse :=
  fun w =>
    let session_id := req_session_id request in
    match sessions w !! session_id with
    | None => (Raise (HTTPException 404 "Session not found"), w)
    | Some session =>
        if negb (String.eqb (status session) "ready")
        then (Raise (HTTPException 400
                       ("Session not ready. Current status: " +:+ status session)), w)
        else try_except (chat_try request session)
               (fun e => h_raise (HTTPException 500 (exc_str e))) w
    end.

Definition get_chat_history (session_id : string) : Handler ext (list Turn) :=
  fun w => match sessions w !! session_id with
           | None => (Raise (HTTPException 404 "Session not found"), w)
           | Some session => (Ok (default [] (chat_history session)), w)
           end.

End Chat.

(** *** The service as a transition system

    A background task is the local state of one run of
    [process_pdf_background]; it advances between the statements that write
    to [sessions], so that requests can be served in between. *)

Inductive Task :=
| Pending (file_path file_name temp_dir : string)
| Begun (file_path file_name temp_dir : string)
| Parsed (file_name temp_dir : string) (texts tables : list string)
| Summarized (file_name temp_dir : string) (texts img_summaries img_paths : list string)
| Finished.

Section System.
Context (ext : Externals).

(** One stretch of the [try] block; an exception runs the [except] branch and
    ends the task, also when that branch raises in turn. *)
Definition guarded (session_id : string) (m : Handler ext Task) (w : World ext)
    : Task * World ext :=
  match try_except m (fun e => _ ← bg_except ext session_id e; mret Finished) w with
  | (Ok t, w') => (t, w')
  | (Raise _, w') => (Finished, w')
  end.

Definition task_step (session_id : string) (t : Task) (w : World ext) : Task * World ext :=
  match t with
  | Pending file_path file_name temp_dir =>
      guarded session_id
        (_ ← bg_begin ext session_id; mret (Begun file_path file_name temp_dir)) w
  | Begun file_path file_name temp_dir =>
      guarded session_id
        ('(texts, tables) ← bg_parse ext session_id file_path temp_dir;
         mret (Parsed file_name temp_dir texts tables)) w
  | Parsed file_name temp_dir texts tables =>
      guarded session_id
        ('(img_summaries, img_paths) ← bg_summarize ext session_id temp_dir;
         mret (Summarized file_name temp_dir texts img_summaries img_paths)) w
  | Summarized file_name temp_dir texts img_summaries img_paths =>
      guarded session_id
        (_ ← bg_build ext session_id file_name temp_dir texts img_summaries img_paths;
         mret Finished) w
  | Finished => (Finished, w)
  end.

(** The globals together with the scheduled background tasks, by session id. *)
Record System := {
  world : World ext;
  tasks : gmap string Task
}.

Definition initial : System :=
  {| world := {| sessions := ∅; message_stores := ∅; _embedding_function := None;
                 disk := fun _ => None; vector_dbs := ∅; chain_log := [] |};
     tasks := ∅ |}.

(** What the service can do next.  [uuid4] never returns an id it returned
    before. *)
Inductive sys_step : System -> System -> Prop :=
| step_upload sys session_id temp_dir filename content r w' :
    tasks sys !! session_id = None ->
    sessions (world sys) !! session_id = None ->
    upload_pdf ext session_id temp_dir filename content (world sys) = (Ok r, w') ->
    sys_step sys
      {| world := w';
         tasks := <[session_id := Pending (os_path_join temp_dir filename) filename temp_dir]>
                    (tasks sys) |}
| step_upload_refused sys session_id temp_dir filename content e w' :
    upload_pdf ext session_id temp_dir filename content (world sys) = (Raise e, w') ->
    sys_step sys {| world := w'; tasks := tasks sys |}
| step_task sys session_id t t' w' :
    tasks sys !! session_id = Some t ->
    task_step session_id t (world sys) = (t', w') ->
    sys_step sys {| world := w'; tasks := <[session_id := t']> (tasks sys) |}
| step_chat sys request r w' :
    chat ext request (world sys) = (r, w') ->
    sys_step sys {| world := w'; tasks := tasks sys |}
| step_get_status sys session_id r w' :
    get_status ext session_id (world sys) = (r, w') ->
    sys_step sys {| world := w'; tasks := tasks sys |}
| step_get_chat_history sys session_id r w' :
    get_chat_history ext session_id (world sys) = (r, w') ->
    sys_step sys {| world := w'; tasks := tasks sys |}
| step_delete_session sys session_id r w' :
    delete_session ext session_id (world sys) = (r, w') ->
    sys_step sys {| world := w'; tasks := tasks sys |}.

Inductive reachable : System -> Prop :=
| reachable_initial : reachable initial
| reachable_step sys sys' : reachable sys -> sys_step sys sys' -> reachable sys'.

End System.

Arguments world {ext} _.
Arguments tasks {ext} _.

(** The lifecycle of the specification; [status] holds its states by name,
    the first one as ["uploading"]. *)
Inductive Lifecycle :=
| uninitialized
| processing
| ready
| error.

Definition lifecycle_of (status : string) : option Lifecycle :=
  if String.eqb status "uploading" then Some uninitialized
  else if String.eqb status "processing" then Some processing
  else if String.eqb status "ready" then Some ready
  else if String.eqb status "error" then Some error
  else None.

(** The edges [uninitialized -> processing -> ready | error]. *)
Definition lifecycle_edge (a b : Lifecycle) : bool :=
  match a, b with
  | uninitialized, processing => true
  | processing, ready => true
  | processing, error => true
  | _, _ => false
  end.

Definition terminal (a : Lifecycle) : bool :=
  match a with
  | ready | error => true
  | _ => false
  end.

End Backend.

(** ** Stand-ins for the externals, for the closed examples *)

(** A splitter for blobs below the chunk size: the stripped blob as one chunk,
    nothing for a blank blob. *)
Definition whole_blob_splitter (sp : RecursiveCharacterTextSplitter) (blob : string)
    : list string :=
  let chunk := strip blob in
  if String.eqb chunk "" then [] else [chunk].

(** Externals whose parser returns [elements] and leaves the disk as [images]
    says, whose vision model answers the [n]-th call with [replies n], and
    whose chain answers with [chain]. *)
Definition sample_externals (elements : list Element) (images : FileSystem)
    (replies : nat -> Result string)
    (chain : Retriever -> list Message -> string -> Result ChainResponse) : Externals :=
  {| Vector := list nat;
     partition_pdf := fun fs _ _ =>
       Ok (elements, fun q => match images q with Some n => Some n | None => fs q end);
     split_text := whole_blob_splitter;
     b64encode := fun bytes => bytes;
     vision_invoke := fun n _ _ => replies n;
     embed := fun m t => [len (model_name m); len t];
     chain_invoke := chain |}.

(** ** Lists and strings *)

Lemma fold_left_snoc_map {A B} (f : A -> B) (l : list A) (acc : list B) :
  fold_left (fun acc x => acc ++ [f x]) l acc = acc ++ map f l.
Proof.
  revert acc. induction l as [|x l IH]; intros acc; simpl.
  - now rewrite app_nil_r.
  - rewrite IH, <- app_assoc. reflexivity.
Qed.

Lemma append_cons (c : ascii) (a b : string) : String c a +:+ b = String c (a +:+ b).
Proof. reflexivity. Qed.

Lemma len_append (a b : string) : len (a +:+ b) = len a + len b.
Proof.
  unfold len. induction a as [|c a IH].
  - reflexivity.
  - rewrite append_cons. cbn [String.length]. now rewrite IH.
Qed.

Lemma len_slice_to (n : nat) (s : string) : len (slice_to n s) = Nat.min n (len s).
Proof.
  unfold len, slice_to. revert n. induction s as [|c s IH]; intros [|n]; simpl; auto.
Qed.

Lemma slice_to_all (n : nat) (s : string) : len s <= n -> slice_to n s = s.
Proof.
  unfold len, slice_to. revert n.
  induction s as [|c s IH]; intros [|n] H; simpl in *; try reflexivity; try lia.
  f_equal. apply IH. lia.
Qed.

(** ** The chat handler, case by case *)

Section ChatFacts.
Context (ext : Externals).
Import Backend.

Lemma chat_unknown (request : ChatRequest) (w : World ext) :
  sessions w !! req_session_id request = None ->
  chat ext request w = (Raise (HTTPException 404 "Session not found"), w).
Proof. intros H. unfold chat. now rewrite H. Qed.

Lemma chat_not_ready (request : ChatRequest) (w : World ext) (session : Session) :
  sessions w !! req_session_id request = Some session ->
  status session <> "ready" ->
  chat ext request w =
    (Raise (HTTPException 400 ("Session not ready. Current status: " +:+ status session)), w).
Proof.
  intros H Hne. unfold chat. rewrite H.
  destruct (String.eqb_spec (status session) "ready") as [E|_]; [contradiction|reflexivity].
Qed.

Lemma chat_ready (request : ChatRequest) (w : World ext) (session : Session) :
  sessions w !! req_session_id request = Some session ->
  status session = "ready" ->
  chat ext request w =
    try_except (chat_try ext request session)
      (fun e => h_raise (HTTPException 500 (exc_str e))) w.
Proof.
  intros H E. unfold chat. rewrite H, E. reflexivity.
Qed.

(** The world in which the chain is called. *)
Definition before_chain (request : ChatRequest) (db : string) (w : World ext) : World ext :=
  snd (get_session_history ext (req_session_id request)
         (snd (run_get_rag_chain ext db w))).

(** The messages the chain is given. *)
Definition history_of (request : ChatRequest) (w : World ext) : list Message :=
  default [] (message_stores w !! req_session_id request).

Definition chain_of (db : string) (w : World ext) : Retriever :=
  fst (get_rag_chain db (_embedding_function w)).

Lemma get_session_history_messages sid (w : World ext) :
  fst (get_session_history ext sid w) = Ok (default [] (message_stores w !! sid)).
Proof. unfold get_session_history. destruct (message_stores w !! sid); reflexivity. Qed.

Lemma get_session_history_sessions sid (w : World ext) :
  sessions (snd (get_session_history ext sid w)) = sessions w
  /\ chain_log (snd (get_session_history ext sid w)) = chain_log w
  /\ forall sid', default [] (message_stores (snd (get_session_history ext sid w)) !! sid')
                  = default [] (message_stores w !! sid').
Proof.
  unfold get_session_history. destruct (message_stores w !! sid) eqn:E; simpl.
  - auto.
  - repeat split. intros sid'. destruct (decide (sid = sid')) as [<-|Hne].
    + now rewrite lookup_insert_eq, E.
    + now rewrite lookup_insert_ne.
Qed.

(** The [try] block with the chain's outcome made explicit. *)
Lemma chat_try_unfold (request : ChatRequest) (session : Session) (db : string)
    (w : World ext) :
  db_path session = Some db ->
  chat_try ext request session w =
    let w1 := before_chain request db w in
    let w2 := with_chain_log (chain_log w1 ++ [(db, req_message request)]) w1 in
    match chain_invoke ext (chain_of db w) (history_of request w) (req_message request) with
    | Raise e => (Raise e, w2)
    | Ok response =>
        (Ok {| resp_answer := answer response; sources := surfaced_sources response |},
         snd (store_turns ext (req_session_id request) (req_message request)
                (answer response)
                (snd (add_messages ext (req_session_id request)
                        [HumanMessage (req_message request); AIMessage (answer response)]
                        w2))))
    end.
Proof.
  intros Hdb. unfold chat_try, before_chain, chain_of, history_of.
  rewrite Hdb. unfold mbind, handler_bind, h_bind, lift, invoke_with_history.
  unfold mbind, handler_bind, h_bind, run_get_rag_chain, get_rag_chain.
  destruct (get_embedding_function (_embedding_function w)) as [ef g'] eqn:Eg.
  cbn [fst snd].
  set (w0 := with_embedding_function g' w).
  pose proof (get_session_history_messages (req_session_id request) w0) as Hm.
  destruct (get_session_history ext (req_session_id request) w0) as [r w1] eqn:Eh.
  cbn [fst snd] in *. subst r.
  unfold call_chain. cbn [store_path].
  replace (message_stores w0) with (message_stores w) by reflexivity.
  destruct (chain_invoke ext _ _ _) as [response|e]; reflexivity.
Qed.

End ChatFacts.

Section ChatTheorems.
Context (ext : Externals).
Import Backend.

Lemma chat_ok_inv (request : ChatRequest) (w : World ext) (resp : ChatResponse) :
  fst (chat ext request w) = Ok resp ->
  exists session db response,
    sessions w !! req_session_id request = Some session
    /\ status session = "ready"
    /\ db_path session = Some db
    /\ chain_invoke ext (chain_of ext db w) (history_of ext request w) (req_message request)
       = Ok response
    /\ resp = {| resp_answer := answer response; sources := surfaced_sources response |}.
Proof.
  intros H.
  destruct (sessions w !! req_session_id request) as [session|] eqn:Hs.
  2:{ rewrite chat_unknown in H by assumption. discriminate. }
  destruct (String.eqb_spec (status session) "ready") as [Hr|Hr].
  2:{ rewrite (chat_not_ready ext request w session) in H by assumption. discriminate. }
  rewrite (chat_ready ext request w session) in H by assumption.
  unfold try_except in H.
  destruct (db_path session) as [db|] eqn:Hdb.
  - rewrite (chat_try_unfold ext request session db w Hdb) in H. cbv zeta in H.
    destruct (chain_invoke ext _ _ _) as [response|e] eqn:Hc.
    + exists session, db, response. cbn [fst] in H. injection H as <-. auto.
    + discriminate.
  - unfold chat_try in H. rewrite Hdb in H. discriminate.
Qed.

Lemma surfaced_sources_map (response : ChainResponse) :
  surfaced_sources response =
    map source_evidence (firstn 5 (default [] (context response))).
Proof.
  unfold surfaced_sources. rewrite fold_left_snoc_map. cbn [app].
  apply firstn_map.
Qed.

Lemma snippet_short (page : string) : len page <= 300 -> snippet page = page.
Proof.
  intros H. unfold snippet.
  destruct (Nat.ltb_spec 300 (len page)); [lia | reflexivity].
Qed.

Lemma snippet_long (page : string) :
  300 < len page -> snippet page = slice_to 300 page +:+ "...".
Proof.
  intros H. unfold snippet.
  destruct (Nat.ltb_spec 300 (len page)); [reflexivity | lia].
Qed.

Lemma snippet_len (page : string) : len (snippet page) <= 303.
Proof.
  unfold snippet. destruct (Nat.ltb_spec 300 (len page)) as [H|H].
  - rewrite len_append, len_slice_to.
    change (len "...") with 3. lia.
  - lia.
Qed.

(** C4. A chat request for an unknown session id is refused with status 404
    and the world is left as it was; for a session whose status is not
    ["ready"] it is refused with status 400 (another status than 404) and the
    world is left as it was, so the chain log does not grow; the chain log
    grows only for a session whose status is ["ready"], and for such a session
    with a store it grows by the one call on that store. *)
Theorem chat_gate (request : ChatRequest) (w : World ext) :
  let sid := req_session_id request in
  let r := chat ext request w in
  (sessions w !! sid = None ->
     r = (Raise (HTTPException 404 "Session not found"), w))
  /\ (forall session, sessions w !! sid = Some session -> status session <> "ready" ->
        r = (Raise (HTTPException 400
                      ("Session not ready. Current status: " +:+ status session)), w)
        /\ chain_log (snd r) = chain_log w
        /\ 400 <> 404)
  /\ (chain_log (snd r) <> chain_log w ->
        exists session, sessions w !! sid = Some session /\ status session = "ready")
  /\ (forall session db, sessions w !! sid = Some session -> status session = "ready" ->
        db_path session = Some db ->
        chain_log (snd r) = chain_log w ++ [(db, req_message request)]).
Proof.
  cbv zeta. repeat split.
  - apply chat_unknown.
  - now apply chat_not_ready.
  - rewrite (chat_not_ready ext request w session) by assumption. reflexivity.
  - discriminate.
  - intros Hlog.
    destruct (sessions w !! req_session_id request) as [session|] eqn:Hs.
    + destruct (String.eqb_spec (status session) "ready") as [Hr|Hr].
      * now exists session.
      * rewrite (chat_not_ready ext request w session) in Hlog by assumption.
        now contradiction Hlog.
    + rewrite chat_unknown in Hlog by assumption. now contradiction Hlog.
  - intros session db Hs Hr Hdb.
    rewrite (chat_ready ext request w session) by assumption.
    unfold try_except.
    rewrite (chat_try_unfold ext request session db w Hdb). cbv zeta.
    assert (Hlog : chain_log (before_chain ext request db w) = chain_log w).
    { unfold before_chain.
      destruct (get_session_history_sessions ext (req_session_id request)
                  (snd (run_get_rag_chain ext db w))) as (_ & -> & _).
      unfold run_get_rag_chain.
      destruct (get_rag_chain db (_embedding_function w)). reflexivity. }
    destruct (chain_invoke ext _ _ _) as [response|e]; cbn; now rewrite Hlog.
Qed.

Lemma chat_ok (request : ChatRequest) (w : World ext) (session : Session) (db : string)
    (response : ChainResponse) :
  sessions w !! req_session_id request = Some session ->
  status session = "ready" ->
  db_path session = Some db ->
  chain_invoke ext (chain_of ext db w) (history_of ext request w) (req_message request)
    = Ok response ->
  fst (chat ext request w)
    = Ok {| resp_answer := answer response; sources := surfaced_sources response |}.
Proof.
  intros Hs Hr Hdb Hc.
  rewrite (chat_ready ext request w session) by assumption.
  unfold try_except.
  rewrite (chat_try_unfold ext request session db w Hdb). cbv zeta.
  rewrite Hc. reflexivity.
Qed.

Lemma chat_raise (request : ChatRequest) (w : World ext) (session : Session) (db : string)
    (e : Exception) :
  sessions w !! req_session_id request = Some session ->
  status session = "ready" ->
  db_path session = Some db ->
  chain_invoke ext (chain_of ext db w) (history_of ext request w) (req_message request)
    = Raise e ->
  chat ext request w =
    (Raise (HTTPException 500 (exc_str e)),
     with_chain_log (chain_log (before_chain ext request db w) ++ [(db, req_message request)])
       (before_chain ext request db w)).
Proof.
  intros Hs Hr Hdb Hc.
  rewrite (chat_ready ext request w session) by assumption.
  unfold try_except.
  rewrite (chat_try_unfold ext request session db w Hdb). cbv zeta.
  rewrite Hc. reflexivity.
Qed.

Lemma before_chain_frame (request : ChatRequest) (db : string) (w : World ext) :
  sessions (before_chain ext request db w) = sessions w
  /\ (forall sid', default [] (message_stores (before_chain ext request db w) !! sid')
                   = default [] (message_stores w !! sid'))
  /\ _embedding_function (before_chain ext request db w)
     = snd (get_embedding_function (_embedding_function w)).
Proof.
  unfold before_chain.
  destruct (get_session_history_sessions ext (req_session_id request)
              (snd (run_get_rag_chain ext db w))) as (Hs & _ & Hm).
  unfold run_get_rag_chain, get_rag_chain in *.
  destruct (get_embedding_function (_embedding_function w)) as [ef g'].
  cbn [snd] in *. repeat split; try assumption.
  unfold get_session_history.
  destruct (message_stores _ !! _); reflexivity.
Qed.

Lemma get_embedding_function_fixed (g : option HuggingFaceEmbeddings) :
  fst (get_embedding_function (snd (get_embedding_function g)))
  = fst (get_embedding_function g).
Proof. destruct g; reflexivity. Qed.

(** C5. On a ready session, when the retrieval chain raises [e] the request
    fails with the one status 500 carrying [str(e)]; the [sessions] dict is
    left as it was (the status is still ["ready"], [chat_history] has no new
    turn), no message is added to any message history, and a later request
    of the session whose chain call returns is answered. *)
Theorem chat_failure_isolated (request : ChatRequest) (w : World ext) (session : Session)
    (db : string) (e : Exception) :
  sessions w !! req_session_id request = Some session ->
  status session = "ready" ->
  db_path session = Some db ->
  chain_invoke ext (chain_of ext db w) (history_of ext request w) (req_message request)
    = Raise e ->
  let r := chat ext request w in
  fst r = Raise (HTTPException 500 (exc_str e))
  /\ sessions (snd r) = sessions w
  /\ (forall sid', default [] (message_stores (snd r) !! sid')
                   = default [] (message_stores w !! sid'))
  /\ (forall request2 response,
        req_session_id request2 = req_session_id request ->
        chain_invoke ext (chain_of ext db (snd r)) (history_of ext request2 (snd r))
          (req_message request2) = Ok response ->
        fst (chat ext request2 (snd r))
          = Ok {| resp_answer := answer response; sources := surfaced_sources response |}).
Proof.
  intros Hs Hr Hdb Hc. cbv zeta.
  rewrite (chat_raise request w session db e) by assumption. cbn [fst snd].
  destruct (before_chain_frame request db w) as (Hsess & Hmsg & _).
  repeat split.
  - exact Hsess.
  - exact Hmsg.
  - intros request2 response Hsid Hc2.
    apply (chat_ok request2 _ session db response); try assumption.
    cbn [sessions with_chain_log]. rewrite Hsess, Hsid. exact Hs.
Qed.

(** C8. A chat response carries the references of the first 5 documents of
    the context the chain returned, whatever their number: at most 5, exactly
    5 when the context holds more, each with the document's source type, its
    snippet, and its image path when the source type is ["image"].  The
    retriever the chain is built on is configured with k = 12. *)
Theorem chat_sources_cap (request : ChatRequest) (w : World ext) (resp : ChatResponse) :
  fst (chat ext request w) = Ok resp ->
  exists db response,
    chain_invoke ext (chain_of ext db w) (history_of ext request w) (req_message request)
      = Ok response
    /\ k (chain_of ext db w) = 12
    /\ let ctx := default [] (context response) in
       sources resp = map source_evidence (firstn 5 ctx)
       /\ length (sources resp) <= 5
       /\ (5 < length ctx -> length (sources resp) = 5)
       /\ Forall2 (fun doc ev =>
                     source_type ev = default "unknown" (metadata doc !! "source")
                     /\ src_content ev = snippet (page_content doc)
                     /\ (source_type ev = "image" ->
                         image_path ev = metadata doc !! "image_path"))
            (firstn 5 ctx) (sources resp).
Proof.
  intros H. destruct (chat_ok_inv request w resp H) as (session & db & response & _ & _ & _ & Hc & ->).
  exists db, response. split; [exact Hc|]. split.
  { unfold chain_of, get_rag_chain.
    destruct (get_embedding_function (_embedding_function w)). reflexivity. }
  cbv zeta. cbn [sources]. rewrite surfaced_sources_map.
  repeat split.
  - rewrite length_map. apply firstn_le_length.
  - intros Hlen. rewrite length_map, length_firstn. lia.
  - induction (firstn 5 (default [] (context response))) as [|doc l IH]; constructor.
    + cbn. repeat split. intros E. unfold source_evidence in *. cbn in *.
      now rewrite E.
    + exact IH.
Qed.

(** C10. In a chat response every reference shows the whole content of its
    document when that content has at most 300 characters, and otherwise its
    first 300 characters followed by ["..."]; a shown content has at most 303
    characters. *)
Theorem chat_snippet_bound (request : ChatRequest) (w : World ext) (resp : ChatResponse) :
  fst (chat ext request w) = Ok resp ->
  exists db response,
    chain_invoke ext (chain_of ext db w) (history_of ext request w) (req_message request)
      = Ok response
    /\ Forall2 (fun doc ev =>
                  let page := page_content doc in
                  (len page <= 300 -> src_content ev = page)
                  /\ (300 < len page -> src_content ev = slice_to 300 page +:+ "..."
                                        /\ len (src_content ev) = 303)
                  /\ len (src_content ev) <= 303)
         (firstn 5 (default [] (context response))) (sources resp).
Proof.
  intros H. destruct (chat_ok_inv request w resp H) as (session & db & response & _ & _ & _ & Hc & ->).
  exists db, response. split; [exact Hc|].
  cbn [sources]. rewrite surfaced_sources_map.
  induction (firstn 5 (default [] (context response))) as [|doc l IH]; constructor.
  - cbv zeta. cbn [source_evidence src_content]. repeat split.
    + apply snippet_short.
    + now apply snippet_long.
    + rewrite snippet_long by assumption. rewrite len_append, len_slice_to.
      change (len "...") with 3. lia.
    + apply snippet_len.
  - exact IH.
Qed.

End ChatTheorems.

(** ** A served session, for the closed examples *)

Definition report_elements : list Element :=
  [ {| type_repr := "<class 'unstructured.documents.elements.Title'>";
       text := "Quarterly report" |};
    {| type_repr := "<class 'unstructured.documents.elements.Table'>";
       text := "Quarter Revenue Q3 5.2M" |};
    {| type_repr := "<class 'unstructured.documents.elements.NarrativeText'>";
       text := "Revenue grew 12% to $5.2M in Q3, driven by subscription renewals and a strong enterprise pipeline in all regions." |} ].

(** The one chunk [whole_blob_splitter] makes of the prose of [report_elements]. *)
Definition report_chunk : string :=
  "Quarterly report

Revenue grew 12% to $5.2M in Q3, driven by subscription renewals and a strong enterprise pipeline in all regions.".

(** A document whose only element is a title. *)
Definition title_only : list Element :=
  [ {| type_repr := "<class 'unstructured.documents.elements.Title'>";
       text := "Quarterly report" |} ].

Definition no_images : FileSystem := fun _ => None.

(** 310 characters. *)
Definition long_page : string := String.concat "" (repeat "0123456789" 31).

Definition seven_docs : list Document :=
  map Backend.text_document ["a"; long_page; "c"; "d"; "e"; "f"; "g"].

Definition answering_chain (_ : Retriever) (_ : list Message) (_ : string)
    : Result ChainResponse :=
  Ok {| answer := "Revenue grew 12%."; context := Some seven_docs |}.

Definition failing_chain (_ : Retriever) (_ : list Message) (_ : string)
    : Result ChainResponse :=
  Raise (ExternalError "model unreachable").

Definition ext_answering : Externals :=
  sample_externals report_elements no_images (fun _ => Ok "skip") answering_chain.

Definition ext_failing : Externals :=
  sample_externals report_elements no_images (fun _ => Ok "skip") failing_chain.

Definition ext_title_only : Externals :=
  sample_externals title_only no_images (fun _ => Ok "skip") answering_chain.

(** The world after one upload and the run of its background task. *)
Definition served (ext : Externals) : Backend.World ext :=
  snd (Backend.process_pdf_background ext "s1" "/tmp/t1/report.pdf" "report.pdf" "/tmp/t1"
         (snd (Backend.upload_pdf ext "s1" "/tmp/t1" "report.pdf" "%PDF-1.7"
                 (Backend.world (Backend.initial ext))))).

Definition served_session : Backend.Session :=
  {| Backend.status := "ready";
     Backend.message := "Ready for questions!";
     Backend.temp_dir := "/tmp/t1";
     Backend.file_path := "/tmp/t1/report.pdf";
     Backend.chat_history := Some [];
     Backend.db_path := Some "/tmp/t1/chroma_db";
     Backend.document_name := Some "report.pdf" |}.

Definition question : Backend.ChatRequest :=
  {| Backend.req_session_id := "s1"; Backend.req_message := "What was the revenue growth?" |}.

(** What the chat handler answers to [question] with [answering_chain]. *)
Definition answered : Backend.ChatResponse :=
  {| Backend.resp_answer := "Revenue grew 12%.";
     Backend.sources := map Backend.source_evidence (firstn 5 seven_docs) |}.

Lemma chat_failure_isolated_witness :
  fst (Backend.chat ext_failing question (served ext_failing))
    = Raise (HTTPException 500 "model unreachable")
  /\ Backend.sessions (snd (Backend.chat ext_failing question (served ext_failing)))
     = Backend.sessions (served ext_failing).
Proof.
  pose proof (chat_failure_isolated ext_failing question (served ext_failing)
                served_session "/tmp/t1/chroma_db" (ExternalError "model unreachable")) as H.
  specialize (H ltac:(vm_compute; reflexivity) ltac:(reflexivity) ltac:(reflexivity)
                ltac:(vm_compute; reflexivity)).
  cbv zeta in H. destruct H as (A & B & _). split; [exact A | exact B].
Defined.

Lemma chat_sources_cap_witness : length (Backend.sources answered) <= 5.
Proof.
  destruct (chat_sources_cap ext_answering question (served ext_answering) answered
              ltac:(vm_compute; reflexivity))
    as (db & response & _ & _ & _ & Hle & _).
  exact Hle.
Defined.

Lemma chat_snippet_bound_witness :
  exists response,
    Forall2 (fun doc ev => len (Backend.src_content ev) <= 303)
      (firstn 5 (default [] (context response))) (Backend.sources answered).
Proof.
  destruct (chat_snippet_bound ext_answering question (served ext_answering) answered
              ltac:(vm_compute; reflexivity))
    as (db & response & _ & HF).
  exists response.
  eapply Forall2_impl; [exact HF|].
  intros doc ev (_ & _ & H). exact H.
Defined.

(** ** Properties of the world that every handler keeps *)

Section Preservation.
Context (ext : Externals).
Import Backend.

Definition preserves {A} (P : World ext -> Prop) (m : Handler ext A) : Prop :=
  forall w, P w -> P (snd (m w)).

Lemma preserves_ret {A} P (a : A) : preserves P (mret a).
Proof. intros w H. exact H. Qed.

Lemma preserves_raise {A} P e : preserves P (h_raise e : Handler ext A).
Proof. intros w H. exact H. Qed.

Lemma preserves_lift {A} P (r : Result A) : preserves P (lift r).
Proof. intros w H. exact H. Qed.

Lemma preserves_bind {A B} P (m : Handler ext A) (f : A -> Handler ext B) :
  preserves P m -> (forall a, preserves P (f a)) -> preserves P (m ≫= f).
Proof.
  intros Hm Hf w H. unfold mbind, handler_bind, h_bind.
  specialize (Hm w H). destruct (m w) as [[a|e] w1]; cbn [snd] in *.
  - now apply Hf.
  - exact Hm.
Qed.

Lemma preserves_try_except {A} P (m : Handler ext A) (h : Exception -> Handler ext A) :
  preserves P m -> (forall e, preserves P (h e)) -> preserves P (try_except m h).
Proof.
  intros Hm Hh w H. unfold try_except.
  specialize (Hm w H). destruct (m w) as [[a|e] w1]; cbn [snd] in *.
  - exact Hm.
  - now apply Hh.
Qed.

End Preservation.

Arguments preserves {ext A} P m.

Create HintDb keeps discriminated.

#[global] Hint Resolve preserves_ret preserves_raise preserves_lift : keeps.

Ltac keeps :=
  lazymatch goal with
  | |- @preserves _ _ _ (mbind _ _) =>
      apply preserves_bind; [keeps | intros ?; keeps]
  | |- @preserves _ _ _ (Backend.try_except _ _) =>
      apply preserves_try_except; [keeps | intros ?; keeps]
  | |- @preserves _ _ _ (match ?x with _ => _ end) => destruct x; keeps
  | |- _ => auto with keeps
  end.

(** ** The embedding model of the service *)

Section Embedding.
Context (ext : Externals).
Import Backend.

(** The module global holds nothing or the one model. *)
Definition fixed_model : HuggingFaceEmbeddings := {| model_name := "all-MiniLM-L6-v2" |}.

Definition singleton_ok (g : option HuggingFaceEmbeddings) : Prop :=
  g = None \/ g = Some fixed_model.

Definition embedding_ok (w : World ext) : Prop := singleton_ok (_embedding_function w).

Lemma get_embedding_function_ok (g : option HuggingFaceEmbeddings) :
  singleton_ok g ->
  fst (get_embedding_function g) = fixed_model
  /\ snd (get_embedding_function g) = Some fixed_model.
Proof. intros [->| ->]; split; reflexivity. Qed.

Lemma update_session_embedding sid f : preserves embedding_ok (update_session ext sid f).
Proof.
  intros w H. unfold update_session. destruct (sessions w !! sid); exact H.
Qed.

Lemma run_makedirs_embedding p : preserves embedding_ok (run_makedirs ext p).
Proof.
  intros w H. unfold run_makedirs. destruct (os_makedirs (disk w) p); exact H.
Qed.

Lemma run_load_pdf_elements_embedding a b :
  preserves embedding_ok (run_load_pdf_elements ext a b).
Proof.
  intros w H. unfold run_load_pdf_elements.
  destruct (load_pdf_elements ext (disk w) a b) as [[[? ?] ?]|]; exact H.
Qed.

Lemma run_generate_image_summaries_embedding d :
  preserves embedding_ok (run_generate_image_summaries ext d).
Proof. intros w H. exact H. Qed.

Lemma run_create_vector_db_embedding texts sums paths db :
  preserves embedding_ok (run_create_vector_db ext texts sums paths db).
Proof.
  intros w H. unfold run_create_vector_db, create_vector_db.
  destruct (get_embedding_function_ok _ H) as [_ Hg].
  destruct (get_embedding_function (_embedding_function w)) as [ef g'].
  cbn in *. right. exact Hg.
Qed.

Lemma run_get_rag_chain_embedding db : preserves embedding_ok (run_get_rag_chain ext db).
Proof.
  intros w H. unfold run_get_rag_chain, get_rag_chain.
  destruct (get_embedding_function_ok _ H) as [_ Hg].
  destruct (get_embedding_function (_embedding_function w)) as [ef g'].
  cbn in *. right. exact Hg.
Qed.

Lemma get_session_history_embedding sid : preserves embedding_ok (get_session_history ext sid).
Proof.
  intros w H. unfold get_session_history. destruct (message_stores w !! sid); exact H.
Qed.

Lemma call_chain_embedding c h i : preserves embedding_ok (call_chain ext c h i).
Proof. intros w H. exact H. Qed.

Lemma add_messages_embedding sid msgs : preserves embedding_ok (add_messages ext sid msgs).
Proof. intros w H. exact H. Qed.

Lemma store_turns_embedding sid a b : preserves embedding_ok (store_turns ext sid a b).
Proof. intros w H. exact H. Qed.

#[local] Hint Resolve
  update_session_embedding run_makedirs_embedding run_load_pdf_elements_embedding
  run_generate_image_summaries_embedding run_create_vector_db_embedding
  run_get_rag_chain_embedding get_session_history_embedding call_chain_embedding
  add_messages_embedding store_turns_embedding : keeps.

Lemma bg_except_embedding sid e : preserves embedding_ok (bg_except ext sid e).
Proof. unfold bg_except. keeps. Qed.

Lemma chat_embedding request : preserves embedding_ok (chat ext request).
Proof.
  intros w H. unfold chat.
  destruct (sessions w !! req_session_id request) as [session|]; [|exact H].
  destruct (negb _); [exact H|].
  revert w H. change (preserves embedding_ok
    (try_except (chat_try ext request session)
       (fun e => h_raise (HTTPException 500 (exc_str e))))).
  unfold chat_try, invoke_with_history. keeps.
Qed.

Lemma guarded_embedding sid m w :
  preserves embedding_ok m -> embedding_ok w -> embedding_ok (snd (guarded ext sid m w)).
Proof.
  intros Hm H. unfold guarded.
  assert (Hp : preserves embedding_ok
                 (try_except m (fun e => _ ← bg_except ext sid e; mret Finished))).
  { apply preserves_try_except; [exact Hm|]. intros e.
    apply preserves_bind; [apply bg_except_embedding|]. intros; apply preserves_ret. }
  specialize (Hp w H).
  destruct (try_except m _ w) as [[t|e] w1]; exact Hp.
Qed.

Lemma task_step_embedding sid t w :
  embedding_ok w -> embedding_ok (snd (task_step ext sid t w)).
Proof.
  intros H. destruct t; cbn [task_step]; try exact H;
    apply guarded_embedding; try exact H;
    unfold bg_begin, bg_parse, bg_summarize, bg_build; keeps.
Qed.

Lemma reachable_embedding sys : reachable ext sys -> embedding_ok (world sys).
Proof.
  induction 1 as [|sys sys' _ IH Hstep].
  - left. reflexivity.
  - destruct Hstep as
      [sys sid td fn c r w' _ _ Hu | sys sid td fn c e w' Hu | sys sid t t' w' _ Ht
      | sys req r w' Hc | sys sid r w' Hg | sys sid r w' Hg | sys sid r w' Hd];
      cbn [world].
    + unfold upload_pdf in Hu. destruct (negb _); inversion Hu; subst. exact IH.
    + unfold upload_pdf in Hu. destruct (negb _); inversion Hu; subst. exact IH.
    + replace w' with (snd (task_step ext sid t (world sys))) by now rewrite Ht.
      now apply task_step_embedding.
    + replace w' with (snd (chat ext req (world sys))) by now rewrite Hc.
      now apply chat_embedding.
    + unfold get_status in Hg.
      destruct (sessions (world sys) !! sid); inversion Hg; subst; exact IH.
    + unfold get_chat_history in Hg.
      destruct (sessions (world sys) !! sid); inversion Hg; subst; exact IH.
    + unfold delete_session in Hd.
      destruct (sessions (world sys) !! sid); inversion Hd; subst; exact IH.
Qed.

End Embedding.

(** C2. In the service, whatever the state in which a store is built and
    whatever the later state in which it is reopened for a chat request, the
    store is built with, and the retriever embeds queries with, the one model
    ["all-MiniLM-L6-v2"]; the Streamlit pipeline names the same model on its
    build path and on its query path. *)
Theorem embedding_model_consistent (ext : Externals)
    (sys_build sys_query : Backend.System ext)
    (texts image_summaries image_paths : list string) (db : string) :
  Backend.reachable ext sys_build ->
  Backend.reachable ext sys_query ->
  let built :=
    fst (Backend.create_vector_db ext texts image_summaries image_paths db
           (Backend._embedding_function (Backend.world sys_build))) in
  let chain :=
    fst (Backend.get_rag_chain db (Backend._embedding_function (Backend.world sys_query))) in
  embedding_function built = query_embedding chain
  /\ query_embedding chain = fixed_model
  /\ embedding_function (Legacy.create_vector_db ext texts image_summaries image_paths db)
     = query_embedding (Legacy.get_rag_chain db)
  /\ query_embedding (Legacy.get_rag_chain db) = fixed_model.
Proof.
  intros Hb Hq. cbv zeta.
  apply reachable_embedding in Hb. apply reachable_embedding in Hq.
  destruct (get_embedding_function_ok _ Hb) as [Eb _].
  destruct (get_embedding_function_ok _ Hq) as [Eq _].
  unfold Backend.create_vector_db, Backend.get_rag_chain.
  destruct (Backend.get_embedding_function
              (Backend._embedding_function (Backend.world sys_build))) as [eb gb].
  destruct (Backend.get_embedding_function
              (Backend._embedding_function (Backend.world sys_query))) as [eq gq].
  cbn in *. subst. repeat split.
Qed.

Lemma embedding_model_consistent_witness :
  embedding_function
    (fst (Backend.create_vector_db ext_answering ["chunk"] [] [] "/tmp/t1/chroma_db" None))
  = query_embedding (fst (Backend.get_rag_chain "/tmp/t1/chroma_db" None)).
Proof.
  exact (proj1 (embedding_model_consistent ext_answering
                  (Backend.initial ext_answering) (Backend.initial ext_answering)
                  ["chunk"] [] [] "/tmp/t1/chroma_db"
                  (Backend.reachable_initial ext_answering)
                  (Backend.reachable_initial ext_answering))).
Defined.

(** ** The image summarizer *)

Definition code_point_le (a b : string) : Prop := String.leb a b = true.

Lemma insert_sorted_perm (x : string) (l : list string) :
  Permutation (insert_sorted x l) (x :: l).
Proof.
  induction l as [|y l IH]; cbn [insert_sorted].
  - reflexivity.
  - destruct (String.leb x y).
    + reflexivity.
    + rewrite IH. apply perm_swap.
Qed.

Lemma sort_perm (l : list string) : Permutation (Py.sort l) l.
Proof.
  induction l as [|x l IH]; cbn [Py.sort].
  - reflexivity.
  - rewrite insert_sorted_perm. now constructor.
Qed.

Lemma insert_sorted_hd (x a : string) (l : list string) :
  code_point_le a x -> HdRel code_point_le a l -> HdRel code_point_le a (insert_sorted x l).
Proof.
  intros Hax Hl. destruct l as [|y l]; cbn [insert_sorted].
  - now constructor.
  - destruct (String.leb x y); constructor; [assumption|now inversion Hl].
Qed.

Lemma insert_sorted_Sorted (x : string) (l : list string) :
  Sorted code_point_le l -> Sorted code_point_le (insert_sorted x l).
Proof.
  induction 1 as [|y l Hs IH Hhd]; cbn [insert_sorted].
  - repeat constructor.
  - destruct (String.leb x y) eqn:E.
    + constructor; [now constructor|]. now constructor.
    + constructor; [exact IH|].
      apply insert_sorted_hd; [|exact Hhd].
      destruct (String.leb_total x y) as [H|H]; [congruence|exact H].
Qed.

Lemma sort_Sorted (l : list string) : Sorted code_point_le (Py.sort l).
Proof.
  induction l as [|x l IH]; cbn [Py.sort].
  - constructor.
  - now apply insert_sorted_Sorted.
Qed.

(** The test of line 53 (line 41 in the Streamlit pipeline). *)
Definition kept (msg : string) : bool := negb (String.eqb (lower (strip msg)) "skip").

Definition image_url (base64_image : string) : string :=
  "data:image/jpeg;base64," +:+ base64_image.

(** The replies of the calls the loop makes, in order. *)
Fixpoint loop_replies (ext : Externals) (fs : FileSystem) (image_dir : string)
    (n : nat) (images : list string) : Result (list string) :=
  match images with
  | [] => Ok []
  | img_file :: rest =>
      base64_image ← encode_image ext fs (os_path_join image_dir img_file);
      msg ← vision_invoke ext n image_prompt (image_url base64_image);
      replies ← loop_replies ext fs image_dir (S n) rest;
      mret (msg :: replies)
  end.

Definition kept_pairs (image_dir : string) (images replies : list string)
    : list (string * string) :=
  List.filter (fun '(_, msg) => kept msg)
    (combine (map (os_path_join image_dir) images) replies).

Lemma summarize_loop_replies ext fs image_dir images :
  forall n summaries paths,
    summarize_loop ext fs image_dir n images summaries paths =
      match loop_replies ext fs image_dir n images with
      | Ok replies =>
          Ok (summaries ++ map snd (kept_pairs image_dir images replies),
              paths ++ map fst (kept_pairs image_dir images replies))
      | Raise e => Raise e
      end.
Proof.
  induction images as [|img_file rest IH]; intros n summaries paths.
  - cbn. now rewrite !app_nil_r.
  - cbn [summarize_loop loop_replies].
    destruct (encode_image ext fs (os_path_join image_dir img_file)) as [b|e]; [|reflexivity].
    cbn [mbind result_bind]. fold (image_url b).
    destruct (vision_invoke ext n image_prompt (image_url b)) as [msg|e]; [|reflexivity].
    cbn [mbind result_bind]. fold (kept msg).
    destruct (kept msg) eqn:Hk; rewrite IH;
      destruct (loop_replies ext fs image_dir (S n) rest) as [replies|e];
      try reflexivity; cbn [mbind result_bind mret result_ret];
      unfold kept_pairs; cbn [map combine List.filter]; rewrite Hk; cbn [map];
      rewrite <- ?app_assoc; reflexivity.
Qed.

Lemma loop_replies_length ext fs image_dir images :
  forall n replies,
    loop_replies ext fs image_dir n images = Ok replies ->
    length replies = length images.
Proof.
  induction images as [|img_file rest IH]; intros n replies H; cbn in H.
  - now injection H as <-.
  - destruct (encode_image ext fs _) as [b|e]; [|discriminate]. cbn in H.
    destruct (vision_invoke ext n _ _) as [msg|e]; [|discriminate]. cbn in H.
    destruct (loop_replies ext fs image_dir (S n) rest) as [rs|e] eqn:E; [|discriminate].
    cbn in H. injection H as <-. cbn. f_equal. eapply IH. exact E.
Qed.

Lemma loop_replies_calls ext fs image_dir images :
  forall n replies,
    loop_replies ext fs image_dir n images = Ok replies ->
    forall i img_file msg,
      nth_error images i = Some img_file ->
      nth_error replies i = Some msg ->
      exists base64_image,
        encode_image ext fs (os_path_join image_dir img_file) = Ok base64_image
        /\ vision_invoke ext (n + i) image_prompt (image_url base64_image) = Ok msg.
Proof.
  induction images as [|f rest IH]; intros n replies H i img_file msg Hi Hm.
  - destruct i; discriminate.
  - cbn in H.
    destruct (encode_image ext fs (os_path_join image_dir f)) as [b|e] eqn:Eb; [|discriminate].
    cbn in H.
    destruct (vision_invoke ext n image_prompt (image_url b)) as [m|e] eqn:Ev; [|discriminate].
    cbn in H.
    destruct (loop_replies ext fs image_dir (S n) rest) as [rs|e] eqn:E; [|discriminate].
    cbn in H. injection H as <-.
    destruct i as [|i]; cbn in Hi, Hm.
    + injection Hi as <-. injection Hm as <-. exists b. now rewrite Nat.add_0_r.
    + destruct (IH (S n) rs E i img_file msg Hi Hm) as (b' & H1 & H2).
      exists b'. split; [exact H1|]. now rewrite Nat.add_succ_r.
Qed.

Lemma kept_pairs_combine image_dir images replies :
  combine (map fst (kept_pairs image_dir images replies))
          (map snd (kept_pairs image_dir images replies))
  = kept_pairs image_dir images replies.
Proof.
  induction (kept_pairs image_dir images replies) as [|[p m] l IH]; cbn.
  - reflexivity.
  - now rewrite IH.
Qed.

(** The two pipelines side by side. *)
Inductive Pipeline :=
| streamlit
| service.

Definition image_suffixes (p : Pipeline) : list string :=
  match p with
  | streamlit => [".jpg"]
  | service => [".jpg"; ".png"; ".jpeg"]
  end.

Definition generate_image_summaries (p : Pipeline) (ext : Externals) (fs : FileSystem)
    (image_dir : string) : Result (list string * list string) :=
  match p with
  | streamlit => Legacy.generate_image_summaries ext fs image_dir
  | service => Backend.generate_image_summaries ext fs image_dir
  end.

(** The entries of a directory, none when there is no directory. *)
Definition listing (fs : FileSystem) (image_dir : string) : list string :=
  match fs image_dir with
  | Some (Dir entries) => entries
  | _ => []
  end.

(** The image files of the directory, in the order of the loop. *)
Definition images_of (p : Pipeline) (fs : FileSystem) (image_dir : string) : list string :=
  Py.sort (List.filter (endswith_any (image_suffixes p)) (listing fs image_dir)).

Lemma jpg_only (entries : list string) :
  List.filter (endswith ".jpg") entries
  = List.filter (endswith_any [".jpg"]) entries.
Proof.
  apply List.filter_ext. intros f. cbn. now rewrite orb_false_r.
Qed.

Lemma generate_image_summaries_inv p ext fs image_dir summaries paths :
  generate_image_summaries p ext fs image_dir = Ok (summaries, paths) ->
  exists replies,
    loop_replies ext fs image_dir 0 (images_of p fs image_dir) = Ok replies
    /\ summaries = map snd (kept_pairs image_dir (images_of p fs image_dir) replies)
    /\ paths = map fst (kept_pairs image_dir (images_of p fs image_dir) replies).
Proof.
  unfold images_of, listing.
  destruct p; cbn [generate_image_summaries image_suffixes].
  - unfold Legacy.generate_image_summaries, os_listdir.
    destruct (fs image_dir) as [[b|entries]|]; cbn [mbind result_bind]; try discriminate.
    rewrite jpg_only, summarize_loop_replies.
    destruct (loop_replies _ _ _ _ _) as [replies|e]; [|discriminate].
    intros H. injection H as <- <-. now exists replies.
  - unfold Backend.generate_image_summaries, os_path_exists, os_listdir.
    destruct (fs image_dir) as [[b|entries]|]; cbn [negb mbind result_bind]; try discriminate.
    + rewrite summarize_loop_replies.
      destruct (loop_replies _ _ _ _ _) as [replies|e]; [|discriminate].
      intros H. injection H as <- <-. now exists replies.
    + intros H. injection H as <- <-. now exists [].
Qed.

(** C6. When a run of the image summarizer (of either pipeline) returns, the
    two lists it returns have the same length; the image files of the
    directory are taken in the order of their names; the model is called once
    per image file, in that order; and the returned (path, summary) pairs are
    those of the calls whose reply, stripped and lowercased, is not ["skip"],
    each summary paired with the path of its image. *)
Theorem summaries_paired (p : Pipeline) (ext : Externals) (fs : FileSystem)
    (image_dir : string) (summaries paths : list string) :
  generate_image_summaries p ext fs image_dir = Ok (summaries, paths) ->
  let images := images_of p fs image_dir in
  length summaries = length paths
  /\ Sorted code_point_le images
  /\ Permutation images
       (List.filter (endswith_any (image_suffixes p)) (listing fs image_dir))
  /\ exists replies,
       length replies = length images
       /\ (forall i img_file msg,
             nth_error images i = Some img_file ->
             nth_error replies i = Some msg ->
             exists base64_image,
               encode_image ext fs (os_path_join image_dir img_file) = Ok base64_image
               /\ vision_invoke ext i image_prompt (image_url base64_image) = Ok msg)
       /\ combine paths summaries
          = List.filter (fun '(_, msg) => kept msg)
              (combine (map (os_path_join image_dir) images) replies).
Proof.
  intros H. cbv zeta.
  destruct (generate_image_summaries_inv p ext fs image_dir summaries paths H)
    as (replies & Hr & -> & ->).
  split; [now rewrite !length_map|].
  split; [apply sort_Sorted|].
  split; [apply sort_perm|].
  exists replies. split; [eapply loop_replies_length; exact Hr|].
  split.
  - intros i img_file msg Hi Hm.
    exact (loop_replies_calls ext fs image_dir _ 0 replies Hr i img_file msg Hi Hm).
  - apply kept_pairs_combine.
Qed.

(** When every read and every model call of the loop returns, so does the
    summarizer of the service. *)
Lemma summarizer_returns ext fs image_dir entries replies :
  fs image_dir = Some (Dir entries) ->
  loop_replies ext fs image_dir 0 (images_of service fs image_dir) = Ok replies ->
  Backend.generate_image_summaries ext fs image_dir
  = Ok (map snd (kept_pairs image_dir (images_of service fs image_dir) replies),
        map fst (kept_pairs image_dir (images_of service fs image_dir) replies)).
Proof.
  intros Hd Hr. unfold images_of, listing in *. rewrite Hd in Hr.
  unfold Backend.generate_image_summaries, os_path_exists, os_listdir. rewrite Hd.
  cbn [negb mbind result_bind]. rewrite summarize_loop_replies.
  cbn [image_suffixes] in Hr. rewrite Hr. reflexivity.
Qed.

(** A directory with three images and a text file. *)
Definition chart_dir : FileSystem := fun q =>
  if String.eqb q "/tmp/t1/images"
  then Some (Dir ["figure-2.jpg"; "notes.txt"; "figure-3.png"; "figure-1.jpg"])
  else if String.eqb q "/tmp/t1/images/figure-1.jpg" then Some (File "JFIF-1")
  else if String.eqb q "/tmp/t1/images/figure-2.jpg" then Some (File "JFIF-2")
  else if String.eqb q "/tmp/t1/images/figure-3.png" then Some (File "PNG-3")
  else if String.eqb q "/tmp/t1/images/notes.txt" then Some (File "notes")
  else None.

Definition chart_replies (n : nat) : Result string :=
  match n with
  | 0 => Ok "Bar chart: revenue by quarter."
  | 1 => Ok "  Skip
"
  | _ => Ok "Line chart: margin over time."
  end.

Definition ext_charts : Externals :=
  sample_externals report_elements chart_dir chart_replies answering_chain.

Lemma summaries_paired_witness :
  exists replies,
    combine ["/tmp/t1/images/figure-1.jpg"; "/tmp/t1/images/figure-3.png"]
            ["Bar chart: revenue by quarter."; "Line chart: margin over time."]
    = List.filter (fun '(_, msg) => kept msg)
        (combine (map (os_path_join "/tmp/t1/images")
                    (images_of service chart_dir "/tmp/t1/images")) replies).
Proof.
  destruct (summaries_paired service ext_charts chart_dir "/tmp/t1/images"
              ["Bar chart: revenue by quarter."; "Line chart: margin over time."]
              ["/tmp/t1/images/figure-1.jpg"; "/tmp/t1/images/figure-3.png"]
              ltac:(vm_compute; reflexivity))
    as (_ & _ & _ & replies & _ & _ & H).
  exists replies. exact H.
Defined.

(** ** The segmenter *)

Lemma service_load_inv ext fs file_path output_image_dir texts tables fs' :
  Backend.load_pdf_elements ext fs file_path output_image_dir = Ok (texts, tables, fs') ->
  exists elements,
    partition_pdf ext fs file_path output_image_dir = Ok (elements, fs')
    /\ tables = snd (separate_tables elements "" [])
    /\ texts = List.filter (fun t => 100 <? len t)
                 (split_text ext
                    {| chunk_size := 1500; chunk_overlap := 300;
                       separators := ["

"; "
"; " "; ""] |}
                    (fst (separate_tables elements "" []))).
Proof.
  unfold Backend.load_pdf_elements.
  destruct (partition_pdf ext fs file_path output_image_dir) as [[elements fs1]|e];
    [|discriminate].
  cbn [mbind result_bind].
  destruct (separate_tables elements "" []) as [raw_text table_elements] eqn:E.
  intros H. injection H as <- <- <-. exists elements. now rewrite E.
Qed.

Lemma streamlit_load_inv ext fs file_path output_image_dir texts tables fs' :
  Legacy.load_pdf_elements ext fs file_path output_image_dir = Ok (texts, tables, fs') ->
  exists elements,
    partition_pdf ext fs file_path output_image_dir = Ok (elements, fs')
    /\ tables = snd (separate_tables elements "" [])
    /\ texts = split_text ext
                 {| chunk_size := 2000; chunk_overlap := 400;
                    separators := ["

"; "
"; " "; ""] |}
                 (fst (separate_tables elements "" [])).
Proof.
  unfold Legacy.load_pdf_elements.
  destruct (partition_pdf ext fs file_path output_image_dir) as [[elements fs1]|e];
    [|discriminate].
  cbn [mbind result_bind].
  destruct (separate_tables elements "" []) as [raw_text table_elements] eqn:E.
  intros H. injection H as <- <- <-. exists elements. now rewrite E.
Qed.

(** The segmenter of the service returns no chunk of 100 characters or fewer,
    whatever the parser and the splitter return. *)
Theorem service_chunks_above_minimum ext fs file_path output_image_dir texts tables fs' :
  Backend.load_pdf_elements ext fs file_path output_image_dir = Ok (texts, tables, fs') ->
  Forall (fun t => 100 < len t) texts.
Proof.
  intros H.
  destruct (service_load_inv _ _ _ _ _ _ _ H) as (elements & _ & _ & ->).
  apply List.Forall_forall. intros t Ht.
  apply List.filter_In in Ht as [_ Ht]. now apply Nat.ltb_lt.
Qed.

Lemma service_chunks_above_minimum_witness : Forall (fun t => 100 < len t) [report_chunk].
Proof.
  exact (service_chunks_above_minimum ext_answering no_images "/tmp/t1/report.pdf"
           "/tmp/t1/images" [report_chunk] ["Quarter Revenue Q3 5.2M"] no_images
           ltac:(vm_compute; reflexivity)).
Defined.

(** C3. On a document whose only element is the title ["Quarterly report"],
    the segmenter of the Streamlit pipeline returns that chunk of 16
    characters, below the minimum of 100; the segmenter of the service
    returns no chunk for the same parse. *)
Theorem streamlit_short_chunk :
  fst <$> (fst <$> Legacy.load_pdf_elements ext_title_only no_images
                     "/tmp/t1/report.pdf" "/tmp/t1/images")
    = Ok ["Quarterly report"]
  /\ len "Quarterly report" = 16
  /\ fst <$> (fst <$> Backend.load_pdf_elements ext_title_only no_images
                        "/tmp/t1/report.pdf" "/tmp/t1/images")
     = Ok [].
Proof. repeat split. Qed.

(** ** The summarizer on a missing or empty directory *)

(** The summarizer of the service returns two empty lists, without raising,
    when nothing is at the path of the image directory and when the directory
    holds no image file. *)
Theorem summarizer_empty_service ext fs image_dir :
  fs image_dir = None
  \/ (exists entries,
        fs image_dir = Some (Dir entries)
        /\ List.filter (endswith_any [".jpg"; ".png"; ".jpeg"]) entries = []) ->
  Backend.generate_image_summaries ext fs image_dir = Ok ([], []).
Proof.
  unfold Backend.generate_image_summaries, os_path_exists, os_listdir.
  intros [H | (entries & H & Hnone)]; rewrite H; cbn [negb mbind result_bind].
  - reflexivity.
  - rewrite Hnone. reflexivity.
Qed.

Lemma summarizer_empty_service_witness :
  Backend.generate_image_summaries ext_answering no_images "/tmp/t1/images" = Ok ([], []).
Proof.
  apply (summarizer_empty_service ext_answering no_images "/tmp/t1/images").
  left. reflexivity.
Defined.

Lemma summarizer_empty_streamlit ext fs image_dir entries :
  fs image_dir = Some (Dir entries) ->
  List.filter (endswith ".jpg") entries = [] ->
  Legacy.generate_image_summaries ext fs image_dir = Ok ([], []).
Proof.
  intros H Hnone. unfold Legacy.generate_image_summaries, os_listdir.
  rewrite H. cbn [mbind result_bind]. rewrite Hnone. reflexivity.
Qed.

Lemma summarizer_missing_streamlit ext fs image_dir :
  fs image_dir = None ->
  Legacy.generate_image_summaries ext fs image_dir = Raise (FileNotFoundError image_dir).
Proof.
  intros H. unfold Legacy.generate_image_summaries, os_listdir. now rewrite H.
Qed.

(** C7. On a path where there is no directory, the summarizer of the
    Streamlit pipeline raises [FileNotFoundError]; the summarizer of the
    service returns two empty lists there. *)
Theorem streamlit_missing_dir_raises :
  Legacy.generate_image_summaries ext_answering no_images "/tmp/t1/images"
    = Raise (FileNotFoundError "/tmp/t1/images")
  /\ Backend.generate_image_summaries ext_answering no_images "/tmp/t1/images"
     = Ok ([], []).
Proof. split; reflexivity. Qed.

(** ** The knowledge-store builder *)

Lemma fold_left_image_documents (pairs : list (string * string)) (docs : list Document) :
  fold_left (fun docs '(summary, path) => docs ++ [Backend.image_document summary path])
    pairs docs
  = docs ++ map (fun '(summary, path) => Backend.image_document summary path) pairs.
Proof.
  revert docs. induction pairs as [|[s p] pairs IH]; intros docs; cbn.
  - now rewrite app_nil_r.
  - rewrite IH, <- app_assoc. reflexivity.
Qed.

Lemma service_builder_documents ext texts image_summaries image_paths db g :
  map fst (collection (fst (Backend.create_vector_db ext texts image_summaries image_paths db g)))
  = map Backend.text_document texts
    ++ map (fun '(summary, path) => Backend.image_document summary path)
         (combine image_summaries image_paths).
Proof.
  unfold Backend.create_vector_db.
  destruct (Backend.get_embedding_function g) as [ef g'].
  cbn [fst collection Chroma_from_documents].
  rewrite fold_left_image_documents, map_map. cbn [fst]. now rewrite map_id.
Qed.

Lemma from_documents_vectors ext documents embedding path :
  Forall (fun '(d, v) => v = embed ext embedding (page_content d))
    (collection (Chroma_from_documents ext documents embedding path)).
Proof.
  cbn [collection Chroma_from_documents].
  induction documents as [|d l IH]; constructor; [reflexivity|exact IH].
Qed.

(** C1 (amended). For every call of the builder of the service with text
    units and image summaries paired one to one with their paths, the store
    holds one document per text unit, with that content and tagged
    source=text, followed by one document per image summary, with that
    content, tagged source=image and carrying the image path; there are as
    many stored documents as units, and each is stored with the vector of its
    content under the one embedding function of the store.  The builder of
    the Streamlit pipeline stores every text unit in the same way.  Table
    units are no input of either builder. *)
Theorem builder_stores_units (ext : Externals)
    (texts image_summaries image_paths : list string) (db : string)
    (g : option HuggingFaceEmbeddings) :
  length image_summaries = length image_paths ->
  let store := fst (Backend.create_vector_db ext texts image_summaries image_paths db g) in
  let legacy := Legacy.create_vector_db ext texts image_summaries image_paths db in
  (exists text_docs image_docs,
     map fst (collection store) = text_docs ++ image_docs
     /\ Forall2 (fun t d => page_content d = t /\ metadata d !! "source" = Some "text")
          texts text_docs
     /\ Forall2 (fun '(summary, path) d =>
                   page_content d = summary
                   /\ metadata d !! "source" = Some "image"
                   /\ metadata d !! "image_path" = Some path)
          (combine image_summaries image_paths) image_docs
     /\ map fst (combine image_summaries image_paths) = image_summaries)
  /\ length (collection store) = length texts + length image_summaries
  /\ Forall (fun '(d, v) => v = embed ext (embedding_function store) (page_content d))
       (collection store)
  /\ (exists text_docs rest,
        map fst (collection legacy) = text_docs ++ rest
        /\ Forall2 (fun t d => page_content d = t /\ metadata d !! "source" = Some "text")
             texts text_docs)
  /\ Forall (fun '(d, v) => v = embed ext (embedding_function legacy) (page_content d))
       (collection legacy).
Proof.
  intros Hlen. cbv zeta.
  assert (Htexts : Forall2
            (fun t d => page_content d = t /\ metadata d !! "source" = Some "text")
            texts (map Backend.text_document texts)).
  { induction texts as [|t l IH]; constructor; [split; reflexivity|exact IH]. }
  assert (Hfst : map fst (combine image_summaries image_paths) = image_summaries).
  { revert image_paths Hlen.
    induction image_summaries as [|s l IH]; intros [|p ps] Hlen; cbn in *;
      try reflexivity; try discriminate.
    f_equal. apply IH. now injection Hlen. }
  repeat split.
  - exists (map Backend.text_document texts),
      (map (fun '(summary, path) => Backend.image_document summary path)
         (combine image_summaries image_paths)).
    split; [apply service_builder_documents|].
    split; [exact Htexts|]. split; [|exact Hfst].
    clear Hfst Hlen.
    induction (combine image_summaries image_paths) as [|[s p] l IH]; constructor.
    + repeat split.
    + exact IH.
  - rewrite <- (length_map fst), service_builder_documents.
    rewrite length_app, !length_map. f_equal.
    rewrite <- Hfst at 2. now rewrite length_map.
  - unfold Backend.create_vector_db.
    destruct (Backend.get_embedding_function g) as [ef g']. cbn [fst].
    apply from_documents_vectors.
  - exists (map Backend.text_document texts), [].
    split; [|exact Htexts].
    unfold Legacy.create_vector_db. cbn [collection Chroma_from_documents].
    rewrite map_map. cbn [fst]. now rewrite map_id, app_nil_r.
  - apply from_documents_vectors.
Qed.

Lemma builder_stores_units_witness :
  length
    (collection
       (fst (Backend.create_vector_db ext_charts [report_chunk]
               ["Bar chart: revenue by quarter."] ["/tmp/t1/images/figure-1.jpg"]
               "/tmp/t1/chroma_db" None)))
  = 1 + 1.
Proof.
  exact (proj1 (proj2 (builder_stores_units ext_charts [report_chunk]
                         ["Bar chart: revenue by quarter."] ["/tmp/t1/images/figure-1.jpg"]
                         "/tmp/t1/chroma_db" None eq_refl))).
Defined.

(** C1, as stated, fails: the parse of the sample report returns one table
    unit, and after the background task has built the store of the session
    that unit is not in it (the store holds the one text chunk). *)
Lemma table_unit_not_stored :
  snd <$> (fst <$> Backend.load_pdf_elements ext_answering no_images
                     "/tmp/t1/report.pdf" "/tmp/t1/images")
    = Ok ["Quarter Revenue Q3 5.2M"]
  /\ map (fun entry => page_content (fst entry))
       (default [] (Backend.vector_dbs (served ext_answering) !! "/tmp/t1/chroma_db"))
     = [report_chunk]
  /\ ~ In "Quarter Revenue Q3 5.2M"
         (map (fun entry => page_content (fst entry))
            (default [] (Backend.vector_dbs (served ext_answering) !! "/tmp/t1/chroma_db"))).
Proof.
  assert (H : map (fun entry => page_content (fst entry))
                (default [] (Backend.vector_dbs (served ext_answering) !! "/tmp/t1/chroma_db"))
              = [report_chunk]) by (vm_compute; reflexivity).
  split; [reflexivity|]. split; [exact H|].
  rewrite H. intros [E|[]]. discriminate E.
Qed.

(** ** The lifecycle of a session *)

Section Lifecycle.
Context (ext : Externals).
Import Backend.

(** The statuses a session can have while its task is in a given state. *)
Definition phase_ok (t : Task) (st : string) : Prop :=
  match t with
  | Pending _ _ _ => st = "uploading"
  | Begun _ _ _ | Parsed _ _ _ _ | Summarized _ _ _ _ _ => st = "processing"
  | Finished => st = "ready" \/ st = "error"
  end.

(** A status stays or moves along an edge of the lifecycle. *)
Definition moves (st st' : string) : Prop :=
  st' = st
  \/ (st = "uploading" /\ st' = "processing")
  \/ (st = "processing" /\ (st' = "ready" \/ st' = "error")).

(** Against a world [w0]: the sessions other than [sid] are as in [w0], and
    [sid] is missing if it was missing in [w0]. *)
Definition framed (sid : string) (w0 w : World ext) : Prop :=
  (forall sid', sid' <> sid -> sessions w !! sid' = sessions w0 !! sid')
  /\ (sessions w0 !! sid = None -> sessions w !! sid = None).

Lemma framed_refl sid w : framed sid w w.
Proof. split; auto. Qed.

Lemma update_session_framed sid w0 f : preserves (framed sid w0) (update_session ext sid f).
Proof.
  intros w [Hf Ha]. unfold update_session, framed.
  destruct (sessions w !! sid) as [s|] eqn:Hs; cbn [snd sessions with_sessions].
  - split.
    + intros sid' Hne. rewrite lookup_insert_ne by congruence. now apply Hf.
    + intros H0. specialize (Ha H0). congruence.
  - now split.
Qed.

Lemma quiet_framed {A} sid w0 (m : Handler ext A) :
  (forall w, sessions (snd (m w)) = sessions w) -> preserves (framed sid w0) m.
Proof. intros Hq w H. unfold framed. now rewrite Hq. Qed.

Lemma run_makedirs_quiet p w : sessions (snd (run_makedirs ext p w)) = sessions w.
Proof. unfold run_makedirs. now destruct (os_makedirs (disk w) p). Qed.

Lemma run_load_pdf_elements_quiet a b w :
  sessions (snd (run_load_pdf_elements ext a b w)) = sessions w.
Proof.
  unfold run_load_pdf_elements.
  now destruct (load_pdf_elements ext (disk w) a b) as [[[? ?] ?]|].
Qed.

Lemma run_generate_image_summaries_quiet d w :
  sessions (snd (run_generate_image_summaries ext d w)) = sessions w.
Proof. reflexivity. Qed.

Lemma run_create_vector_db_quiet texts sums paths db w :
  sessions (snd (run_create_vector_db ext texts sums paths db w)) = sessions w.
Proof.
  unfold run_create_vector_db.
  now destruct (create_vector_db ext texts sums paths db (_embedding_function w)).
Qed.

Lemma run_create_vector_db_returns texts sums paths db w :
  fst (run_create_vector_db ext texts sums paths db w) = Ok tt.
Proof.
  unfold run_create_vector_db.
  now destruct (create_vector_db ext texts sums paths db (_embedding_function w)).
Qed.

#[local] Hint Resolve update_session_framed : keeps.
#[local] Hint Extern 1 (@preserves _ _ _ _) =>
  apply quiet_framed;
  first [ apply run_makedirs_quiet | apply run_load_pdf_elements_quiet
        | apply run_generate_image_summaries_quiet | apply run_create_vector_db_quiet ]
  : keeps.

(** For a session [sid] that is there with status [st]: it is still there
    after [m], and [Q] holds of what [m] returned and of the new status. *)
Definition tri {A} (sid st : string) (m : Handler ext A)
    (Q : Result A -> string -> Prop) : Prop :=
  forall w s,
    sessions w !! sid = Some s -> status s = st ->
    exists s', sessions (snd (m w)) !! sid = Some s' /\ Q (fst (m w)) (status s').

Lemma tri_bind {A B} sid st (m : Handler ext A) (f : A -> Handler ext B) Q1 Q :
  tri sid st m Q1 ->
  (forall a st1, Q1 (Ok a) st1 -> tri sid st1 (f a) Q) ->
  (forall e st1, Q1 (Raise e) st1 -> Q (Raise e) st1) ->
  tri sid st (m ≫= f) Q.
Proof.
  intros Hm Hf Hraise w s Hs Hst. unfold mbind, handler_bind, h_bind.
  destruct (Hm w s Hs Hst) as (s1 & Hs1 & HQ1).
  destruct (m w) as [[a|e] w1]; cbn [fst snd] in *.
  - exact (Hf a (status s1) HQ1 w1 s1 Hs1 eq_refl).
  - exists s1. auto.
Qed.

Lemma tri_try_except {A} sid st (m : Handler ext A) (h : Exception -> Handler ext A) Q1 Q :
  tri sid st m Q1 ->
  (forall a st1, Q1 (Ok a) st1 -> Q (Ok a) st1) ->
  (forall e st1, Q1 (Raise e) st1 -> tri sid st1 (h e) Q) ->
  tri sid st (try_except m h) Q.
Proof.
  intros Hm Hok Hh w s Hs Hst. unfold try_except.
  destruct (Hm w s Hs Hst) as (s1 & Hs1 & HQ1).
  destruct (m w) as [[a|e] w1]; cbn [fst snd] in *.
  - exists s1. auto.
  - exact (Hh e (status s1) HQ1 w1 s1 Hs1 eq_refl).
Qed.

Lemma tri_ret {A} sid st (a : A) :
  tri sid st (mret a) (fun r st' => r = Ok a /\ st' = st).
Proof. intros w s Hs Hst. exists s. auto. Qed.

Lemma tri_quiet {A} sid st (m : Handler ext A) :
  (forall w, sessions (snd (m w)) = sessions w) ->
  tri sid st m (fun _ st' => st' = st).
Proof. intros Hq w s Hs Hst. exists s. now rewrite Hq. Qed.

Lemma tri_update_status sid st v :
  tri sid st (update_session ext sid (set_status v)) (fun r st' => r = Ok tt /\ st' = v).
Proof.
  intros w s Hs Hst. unfold update_session. rewrite Hs.
  cbn [fst snd sessions with_sessions]. rewrite lookup_insert_eq. eauto.
Qed.

Lemma tri_update_keep sid st f :
  (forall s, status (f s) = status s) ->
  tri sid st (update_session ext sid f) (fun r st' => r = Ok tt /\ st' = st).
Proof.
  intros Hf w s Hs Hst. unfold update_session. rewrite Hs.
  cbn [fst snd sessions with_sessions]. rewrite lookup_insert_eq.
  exists (f s). rewrite Hf. auto.
Qed.

Lemma tri_weaken {A} sid st (m : Handler ext A) (Q Q' : Result A -> string -> Prop) :
  tri sid st m Q -> (forall r st', Q r st' -> Q' r st') -> tri sid st m Q'.
Proof.
  intros Hm HQ w s Hs Hst. destruct (Hm w s Hs Hst) as (s' & H1 & H2). eauto.
Qed.

Lemma bg_begin_tri sid st :
  tri sid st (bg_begin ext sid) (fun r st' => r = Ok tt /\ st' = "processing").
Proof.
  unfold bg_begin. eapply tri_bind.
  - apply tri_update_status.
  - intros [] st1 [_ ->]. now apply tri_update_keep.
  - intros e st1 [H _]. discriminate.
Qed.

Lemma bg_except_tri sid st e :
  tri sid st (bg_except ext sid e) (fun r st' => r = Ok tt /\ st' = "error").
Proof.
  unfold bg_except. eapply tri_bind.
  - apply tri_update_status.
  - intros [] st1 [_ ->]. now apply tri_update_keep.
  - intros e' st1 [H _]. discriminate.
Qed.

Lemma bg_parse_tri sid st file_path temp_dir :
  tri sid st (bg_parse ext sid file_path temp_dir) (fun _ st' => st' = st).
Proof.
  unfold bg_parse. eapply tri_bind.
  - apply tri_quiet, run_makedirs_quiet.
  - intros [] st1 ->. eapply tri_bind.
    + apply tri_quiet, run_load_pdf_elements_quiet.
    + intros r st1 ->. eapply tri_bind.
      * now apply tri_update_keep.
      * intros [] st1 [_ ->]. eapply tri_weaken; [apply tri_ret|]. now intros ? ? [_ ->].
      * intros e st1 [H _]. discriminate.
    + auto.
  - auto.
Qed.

Lemma bg_summarize_tri sid st temp_dir :
  tri sid st (bg_summarize ext sid temp_dir) (fun _ st' => st' = st).
Proof.
  unfold bg_summarize. eapply tri_bind.
  - apply tri_quiet, run_generate_image_summaries_quiet.
  - intros r st1 ->. eapply tri_bind.
    + now apply tri_update_keep.
    + intros [] st1 [_ ->]. eapply tri_weaken; [apply tri_ret|]. now intros ? ? [_ ->].
    + intros e st1 [H _]. discriminate.
  - auto.
Qed.

Lemma run_create_vector_db_tri sid st texts sums paths db :
  tri sid st (run_create_vector_db ext texts sums paths db)
    (fun r st' => r = Ok tt /\ st' = st).
Proof.
  intros w s Hs Hst. exists s. rewrite run_create_vector_db_quiet.
  split; [exact Hs|].
  exact (conj (run_create_vector_db_returns texts sums paths db w) Hst).
Qed.

Lemma bg_build_tri sid st file_name temp_dir texts sums paths :
  tri sid st (bg_build ext sid file_name temp_dir texts sums paths)
    (fun r st' => r = Ok tt /\ st' = "ready").
Proof.
  unfold bg_build. eapply tri_bind.
  - apply run_create_vector_db_tri.
  - intros [] st1 [_ ->]. eapply tri_bind.
    + apply tri_update_status.
    + intros [] st1 [_ ->]. eapply tri_bind.
      * now apply tri_update_keep.
      * intros [] st1 [_ ->]. eapply tri_bind.
        -- now apply tri_update_keep.
        -- intros [] st1 [_ ->]. now apply tri_update_keep.
        -- intros e st1 [H _]. discriminate.
      * intros e st1 [H _]. discriminate.
    + intros e st1 [H _]. discriminate.
  - intros e st1 [H _]. discriminate.
Qed.

Lemma guarded_preserves (P : World ext -> Prop) sid m w :
  preserves P m -> (forall e, preserves P (bg_except ext sid e)) ->
  P w -> P (snd (guarded ext sid m w)).
Proof.
  intros Hm He H. unfold guarded.
  assert (Hp : preserves P (try_except m (fun e => _ ← bg_except ext sid e; mret Finished))).
  { apply preserves_try_except; [exact Hm|]. intros e.
    apply preserves_bind; [apply He|]. intros; apply preserves_ret. }
  specialize (Hp w H).
  destruct (try_except m _ w) as [[t|e] w1]; exact Hp.
Qed.

Lemma guarded_tri sid st m (Q : Result Task -> string -> Prop) w s :
  tri sid st m Q ->
  sessions w !! sid = Some s -> status s = st ->
  exists s',
    sessions (snd (guarded ext sid m w)) !! sid = Some s'
    /\ (Q (Ok (fst (guarded ext sid m w))) (status s')
        \/ (fst (guarded ext sid m w) = Finished /\ status s' = "error"
            /\ exists e st1, Q (Raise e) st1)).
Proof.
  intros Hm Hs Hst. unfold guarded, try_except.
  destruct (Hm w s Hs Hst) as (s1 & Hs1 & HQ).
  destruct (m w) as [[t|e] w1]; cbn [fst snd] in *.
  - exists s1. auto.
  - destruct (bg_except_tri sid (status s1) e w1 s1 Hs1 eq_refl) as (s2 & Hs2 & Hr & He).
    unfold mbind, handler_bind, h_bind.
    destruct (bg_except ext sid e w1) as [[[]|e'] w2]; cbn [fst snd] in *; [|discriminate].
    exists s2. split; [exact Hs2|]. right. eauto.
Qed.

Lemma bg_except_framed sid w0 e : preserves (framed sid w0) (bg_except ext sid e).
Proof. unfold bg_except. keeps. Qed.

(** One step of the task of [sid]: the other sessions are left alone, a
    deleted session stays deleted, and a session that is there in a status of
    the task's state is afterwards in a status of the new state, reached along
    the lifecycle. *)
Lemma task_step_sessions sid t w :
  framed sid w (snd (task_step ext sid t w))
  /\ (forall s, sessions w !! sid = Some s -> phase_ok t (status s) ->
        exists s',
          sessions (snd (task_step ext sid t w)) !! sid = Some s'
          /\ phase_ok (fst (task_step ext sid t w)) (status s')
          /\ moves (status s) (status s')).
Proof.
  split.
  - destruct t; cbn [task_step]; try apply framed_refl;
      (apply guarded_preserves;
       [ unfold bg_begin, bg_parse, bg_summarize, bg_build; keeps
       | intros e; apply bg_except_framed
       | apply framed_refl ]).
  - intros s Hs Hph. destruct t as [fp fn td|fp fn td|fn td texts tables|fn td texts sums paths|];
      cbn [task_step phase_ok] in *.
    + destruct (guarded_tri sid "uploading"
                  (_ ← bg_begin ext sid; mret (Begun fp fn td))
                  (fun r st' => r = Ok (Begun fp fn td) /\ st' = "processing") w s)
        as (s' & Hs' & [[Ht Hst']|(_ & _ & e & st1 & He & _)]); try assumption.
      * eapply tri_bind; [apply bg_begin_tri| |].
        -- intros [] st1 [_ ->]. apply tri_ret.
        -- intros e st1 [H _]. discriminate.
      * exists s'. injection Ht as Ht. rewrite Ht, Hst', Hph.
        split; [exact Hs'|]. split; [reflexivity|]. right. left. auto.
      * discriminate.
    + destruct (guarded_tri sid "processing"
                  ('(texts, tables) ← bg_parse ext sid fp td;
                   mret (Parsed fn td texts tables))
                  (fun r st' => st' = "processing"
                             /\ forall t, r = Ok t -> phase_ok t "processing") w s)
        as (s' & Hs' & [[Hst' Ht]|(Ht & Hst' & _)]); try assumption.
      * eapply tri_bind; [apply bg_parse_tri| |].
        -- intros [texts tables] st1 ->. eapply tri_weaken; [apply tri_ret|].
           intros r st' [-> ->]. split; [reflexivity|]. now intros t [= <-].
        -- intros e st1 ->. split; [reflexivity|discriminate].
      * exists s'. rewrite Hst', Hph.
        split; [exact Hs'|]. split; [now apply Ht|]. now left.
      * exists s'. rewrite Ht, Hst', Hph.
        split; [exact Hs'|]. split; [now right|]. right. right. auto.
    + destruct (guarded_tri sid "processing"
                  ('(img_summaries, img_paths) ← bg_summarize ext sid td;
                   mret (Summarized fn td texts img_summaries img_paths))
                  (fun r st' => st' = "processing"
                             /\ forall t, r = Ok t -> phase_ok t "processing") w s)
        as (s' & Hs' & [[Hst' Ht]|(Ht & Hst' & _)]); try assumption.
      * eapply tri_bind; [apply bg_summarize_tri| |].
        -- intros [sums paths] st1 ->. eapply tri_weaken; [apply tri_ret|].
           intros r st' [-> ->]. split; [reflexivity|]. now intros t [= <-].
        -- intros e st1 ->. split; [reflexivity|discriminate].
      * exists s'. rewrite Hst', Hph.
        split; [exact Hs'|]. split; [now apply Ht|]. now left.
      * exists s'. rewrite Ht, Hst', Hph.
        split; [exact Hs'|]. split; [now right|]. right. right. auto.
    + destruct (guarded_tri sid "processing"
                  (_ ← bg_build ext sid fn td texts sums paths; mret Finished)
                  (fun r st' => r = Ok Finished /\ st' = "ready") w s)
        as (s' & Hs' & [[Ht Hst']|(_ & _ & e & st1 & He & _)]); try assumption.
      * eapply tri_bind; [apply bg_build_tri| |].
        -- intros [] st1 [_ ->]. apply tri_ret.
        -- intros e st1 [H _]. discriminate.
      * exists s'. injection Ht as Ht. rewrite Ht, Hst', Hph.
        split; [exact Hs'|]. split; [now left|]. right. right. auto.
      * discriminate.
    + exists s. unfold moves. auto.
Qed.

(** A chat request changes the status of no session and creates or deletes
    none. *)
Lemma chat_sessions request w sid :
  match sessions w !! sid with
  | None => sessions (snd (chat ext request w)) !! sid = None
  | Some s =>
      exists s', sessions (snd (chat ext request w)) !! sid = Some s'
                 /\ status s' = status s
  end.
Proof.
  assert (Hsame : sessions (snd (chat ext request w)) = sessions w ->
                  match sessions w !! sid with
                  | None => sessions (snd (chat ext request w)) !! sid = None
                  | Some s =>
                      exists s', sessions (snd (chat ext request w)) !! sid = Some s'
                                 /\ status s' = status s
                  end).
  { intros ->. destruct (sessions w !! sid); eauto. }
  destruct (sessions w !! req_session_id request) as [session|] eqn:Hs.
  2:{ apply Hsame. now rewrite chat_unknown. }
  destruct (String.eqb_spec (status session) "ready") as [Hr|Hr].
  2:{ apply Hsame. now rewrite (chat_not_ready ext request w session). }
  destruct (db_path session) as [db|] eqn:Hdb.
  2:{ apply Hsame. rewrite (chat_ready ext request w session) by assumption.
      unfold try_except, chat_try. rewrite Hdb. reflexivity. }
  clear Hsame.
  rewrite (chat_ready ext request w session) by assumption.
  unfold try_except. rewrite (chat_try_unfold ext request session db w Hdb). cbv zeta.
  destruct (before_chain_frame ext request db w) as (Hsess & _ & _).
  destruct (chain_invoke ext _ _ _) as [response|e];
    cbn [fst snd h_raise sessions with_chain_log store_turns add_messages
         with_sessions with_message_stores].
  - rewrite Hsess, lookup_alter.
    destruct (decide (req_session_id request = sid)) as [->|Hne].
    + destruct (sessions w !! sid) as [s|]; cbn; eauto.
    + destruct (sessions w !! sid) as [s|]; cbn; eauto.
  - rewrite Hsess. destruct (sessions w !! sid); eauto.
Qed.

(** Every session has a task, and its status is one of the task's state. *)
Definition consistent (sys : System ext) : Prop :=
  forall sid s,
    sessions (world sys) !! sid = Some s ->
    exists t, tasks sys !! sid = Some t /\ phase_ok t (status s).

Lemma upload_pdf_ok sid td fn content w r w' :
  upload_pdf ext sid td fn content w = (Ok r, w') ->
  exists session,
    status session = "uploading"
    /\ sessions w' = <[sid := session]> (sessions w).
Proof.
  unfold upload_pdf. destruct (negb _); [discriminate|].
  intros H. injection H as _ <-. eexists. split; [|reflexivity]. reflexivity.
Qed.

Lemma upload_pdf_refused sid td fn content w e w' :
  upload_pdf ext sid td fn content w = (Raise e, w') -> w' = w.
Proof.
  unfold upload_pdf. destruct (negb _); [|discriminate].
  now intros [= _ <-].
Qed.

Lemma step_effect sys sys' :
  consistent sys -> sys_step ext sys sys' ->
  consistent sys'
  /\ (forall sid s s',
        sessions (world sys) !! sid = Some s ->
        sessions (world sys') !! sid = Some s' ->
        moves (status s) (status s'))
  /\ (forall sid s',
        sessions (world sys) !! sid = None ->
        sessions (world sys') !! sid = Some s' ->
        status s' = "uploading").
Proof.
  intros Hc Hstep.
  assert (Hstay : forall w', w' = world sys ->
            consistent {| world := w'; tasks := tasks sys |}
            /\ (forall sid s s',
                  sessions (world sys) !! sid = Some s ->
                  sessions w' !! sid = Some s' -> moves (status s) (status s'))
            /\ (forall sid s',
                  sessions (world sys) !! sid = None ->
                  sessions w' !! sid = Some s' -> status s' = "uploading")).
  { intros w' ->. repeat split.
    - exact Hc.
    - intros sid s s' H1 H2. rewrite H1 in H2. injection H2 as <-. now left.
    - intros sid s' H1 H2. congruence. }
  destruct Hstep as
    [sys sid td fn c r w' Ht Hs Hu | sys sid td fn c e w' Hu | sys sid t t' w' Ht Hts
    | sys req r w' Hch | sys sid r w' Hg | sys sid r w' Hg | sys sid r w' Hd];
    cbn [world tasks] in *.
  - destruct (upload_pdf_ok _ _ _ _ _ _ _ Hu) as (session & Hst & Hw').
    repeat split.
    + intros sid0 s0. cbn [world tasks]. rewrite Hw'.
      destruct (decide (sid = sid0)) as [<-|Hne].
      * rewrite !lookup_insert_eq. intros [= <-]. eexists. split; [reflexivity|exact Hst].
      * rewrite !lookup_insert_ne by assumption. apply Hc.
    + intros sid0 s0 s0' H1. rewrite Hw'.
      destruct (decide (sid = sid0)) as [<-|Hne]; [congruence|].
      rewrite lookup_insert_ne by assumption. intros H2.
      rewrite H1 in H2. injection H2 as <-. now left.
    + intros sid0 s0' H1. rewrite Hw'.
      destruct (decide (sid = sid0)) as [<-|Hne].
      * rewrite lookup_insert_eq. now intros [= <-].
      * rewrite lookup_insert_ne by assumption. congruence.
  - apply Hstay. eapply upload_pdf_refused. exact Hu.
  - destruct (task_step_sessions sid t (world sys)) as [[Hfr Habs] Hpres].
    rewrite Hts in Hfr, Habs, Hpres. cbn [fst snd] in *.
    repeat split.
    + intros sid0 s0. cbn [world tasks].
      destruct (decide (sid = sid0)) as [<-|Hne].
      * rewrite lookup_insert_eq. intros H0.
        destruct (sessions (world sys) !! sid) as [s|] eqn:Hs.
        -- destruct (Hc sid s Hs) as (t0 & Ht0 & Hph).
           rewrite Ht in Ht0. injection Ht0 as <-.
           destruct (Hpres s eq_refl Hph) as (s' & Hs' & Hph' & _).
           rewrite H0 in Hs'. injection Hs' as <-. eauto.
        -- rewrite Habs in H0 by reflexivity. discriminate.
      * rewrite lookup_insert_ne by assumption.
        rewrite Hfr by congruence. apply Hc.
    + intros sid0 s0 s0' H1 H2.
      destruct (decide (sid = sid0)) as [<-|Hne].
      * destruct (Hc sid s0 H1) as (t0 & Ht0 & Hph).
        rewrite Ht in Ht0. injection Ht0 as <-.
        rewrite H1 in Hpres.
        destruct (Hpres s0 eq_refl Hph) as (s' & Hs' & _ & Hm).
        rewrite H2 in Hs'. injection Hs' as <-. exact Hm.
      * rewrite Hfr in H2 by congruence. rewrite H1 in H2. injection H2 as <-. now left.
    + intros sid0 s0' H1 H2.
      destruct (decide (sid = sid0)) as [<-|Hne].
      * rewrite Habs in H2 by assumption. discriminate.
      * rewrite Hfr in H2 by congruence. congruence.
  - assert (Hw' : w' = snd (chat ext req (world sys))) by now rewrite Hch.
    subst w'. repeat split.
    + intros sid0 s0 H0. cbn [world tasks] in *.
      pose proof (chat_sessions req (world sys) sid0) as Hcs.
      destruct (sessions (world sys) !! sid0) as [s|] eqn:Hs; [|congruence].
      destruct Hcs as (s' & Hs' & Hst). rewrite H0 in Hs'. injection Hs' as <-.
      destruct (Hc sid0 s Hs) as (t & Ht & Hph). exists t. now rewrite Hst.
    + intros sid0 s0 s0' H1 H2.
      pose proof (chat_sessions req (world sys) sid0) as Hcs. rewrite H1 in Hcs.
      destruct Hcs as (s' & Hs' & Hst). rewrite H2 in Hs'. injection Hs' as <-.
      left. exact Hst.
    + intros sid0 s0' H1 H2.
      pose proof (chat_sessions req (world sys) sid0) as Hcs. rewrite H1 in Hcs.
      congruence.
  - apply Hstay. unfold get_status in Hg.
    destruct (sessions (world sys) !! sid); now injection Hg.
  - apply Hstay. unfold get_chat_history in Hg.
    destruct (sessions (world sys) !! sid); now injection Hg.
  - unfold delete_session in Hd.
    destruct (sessions (world sys) !! sid) as [session|] eqn:Hs.
    2:{ apply Hstay. now injection Hd. }
    injection Hd as _ <-. cbn [sessions with_sessions with_disk].
    repeat split.
    + intros sid0 s0. cbn [world tasks sessions with_sessions with_disk].
      intros H0. apply lookup_delete_Some in H0 as [_ H0]. now apply Hc.
    + intros sid0 s0 s0' H1 H2. apply lookup_delete_Some in H2 as [_ H2].
      rewrite H1 in H2. injection H2 as <-. now left.
    + intros sid0 s0' H1 H2. apply lookup_delete_Some in H2 as [_ H2]. congruence.
Qed.

Lemma reachable_consistent sys : reachable ext sys -> consistent sys.
Proof.
  induction 1 as [|sys sys' _ IH Hstep].
  - intros sid s H. cbn in H. rewrite lookup_empty in H. discriminate.
  - exact (proj1 (step_effect sys sys' IH Hstep)).
Qed.

Lemma phase_lifecycle t st : phase_ok t st -> is_Some (lifecycle_of st).
Proof.
  destruct t; cbn; intros H; try destruct H as [H|H]; subst; cbn; eauto.
Qed.

Lemma moves_lifecycle t st st' :
  phase_ok t st -> moves st st' ->
  exists a b,
    lifecycle_of st = Some a /\ lifecycle_of st' = Some b
    /\ (b = a \/ lifecycle_edge a b = true)
    /\ (terminal a = true -> b = a).
Proof.
  intros Hph Hm.
  assert (Hst : st = "uploading" \/ st = "processing" \/ st = "ready" \/ st = "error").
  { destruct t; cbn in Hph; intuition. }
  destruct Hm as [->|[[-> ->]|[-> [->| ->]]]].
  - destruct Hst as [->|[->|[->| ->]]]; cbn; eexists _, _; repeat split; auto.
  - eexists _, _; cbn; repeat split; auto; discriminate.
  - eexists _, _; cbn; repeat split; auto; discriminate.
  - eexists _, _; cbn; repeat split; auto; discriminate.
Qed.

(** The system after the upload of a file under a fresh id. *)
Definition after_upload (sid td fn content : string) (sys : System ext) : System ext :=
  {| world := snd (upload_pdf ext sid td fn content (world sys));
     tasks := <[sid := Pending (os_path_join td fn) fn td]> (tasks sys) |}.

(** The system after the next step of the task of [sid]. *)
Definition run_task (sid : string) (sys : System ext) : System ext :=
  match tasks sys !! sid with
  | Some t =>
      {| world := snd (task_step ext sid t (world sys));
         tasks := <[sid := fst (task_step ext sid t (world sys))]> (tasks sys) |}
  | None => sys
  end.

Lemma reachable_after_upload sid td fn content sys :
  reachable ext sys ->
  tasks sys !! sid = None ->
  sessions (world sys) !! sid = None ->
  endswith ".pdf" fn = true ->
  reachable ext (after_upload sid td fn content sys).
Proof.
  intros Hr Ht Hs Hpdf. eapply reachable_step; [exact Hr|].
  unfold after_upload.
  destruct (upload_pdf ext sid td fn content (world sys)) as [r w'] eqn:Hu.
  destruct r as [r|e].
  - eapply step_upload; eassumption.
  - unfold upload_pdf in Hu. rewrite Hpdf in Hu. discriminate.
Qed.

Lemma reachable_run_task sid sys :
  reachable ext sys -> reachable ext (run_task sid sys).
Proof.
  intros Hr. unfold run_task.
  destruct (tasks sys !! sid) as [t|] eqn:Ht; [|exact Hr].
  eapply reachable_step; [exact Hr|].
  eapply step_task; [exact Ht|].
  now destruct (task_step ext sid t (world sys)).
Qed.

End Lifecycle.

(** C9. In every reachable state of the service, the status of every session
    names one of the four states of the lifecycle ([uninitialized] under the
    name ["uploading"]); whatever the service does next, a session that
    remains keeps its state or moves along one of the edges
    uninitialized -> processing, processing -> ready, processing -> error, and
    keeps it when the state is ready or error; a session that appears starts
    uninitialized; and a chat request is answered only for a session in the
    state ready. *)
Theorem lifecycle_invariant (ext : Externals) (sys : Backend.System ext) :
  Backend.reachable ext sys ->
  (forall sid s,
     Backend.sessions (Backend.world sys) !! sid = Some s ->
     is_Some (Backend.lifecycle_of (Backend.status s)))
  /\ (forall sys', Backend.sys_step ext sys sys' ->
        (forall sid s s',
           Backend.sessions (Backend.world sys) !! sid = Some s ->
           Backend.sessions (Backend.world sys') !! sid = Some s' ->
           exists a b,
             Backend.lifecycle_of (Backend.status s) = Some a
             /\ Backend.lifecycle_of (Backend.status s') = Some b
             /\ (b = a \/ Backend.lifecycle_edge a b = true)
             /\ (Backend.terminal a = true -> b = a))
        /\ (forall sid s',
              Backend.sessions (Backend.world sys) !! sid = None ->
              Backend.sessions (Backend.world sys') !! sid = Some s' ->
              Backend.lifecycle_of (Backend.status s') = Some Backend.uninitialized))
  /\ (forall request resp,
        fst (Backend.chat ext request (Backend.world sys)) = Ok resp ->
        exists s,
          Backend.sessions (Backend.world sys) !! Backend.req_session_id request = Some s
          /\ Backend.lifecycle_of (Backend.status s) = Some Backend.ready).
Proof.
  intros Hr. pose proof (reachable_consistent ext sys Hr) as Hc.
  split; [|split].
  - intros sid s Hs. destruct (Hc sid s Hs) as (t & _ & Hph).
    eapply phase_lifecycle. exact Hph.
  - intros sys' Hstep.
    destruct (step_effect ext sys sys' Hc Hstep) as (_ & Hm & Hnew). split.
    + intros sid s s' H1 H2. destruct (Hc sid s H1) as (t & _ & Hph).
      eapply moves_lifecycle; [exact Hph|]. eapply Hm; eassumption.
    + intros sid s' H1 H2. now rewrite (Hnew sid s' H1 H2).
  - intros request resp Hok.
    destruct (chat_ok_inv ext request _ resp Hok) as (s & db & response & Hs & Hst & _).
    exists s. split; [exact Hs|]. now rewrite Hst.
Qed.

(** The service after one upload and the four steps of its task. *)
Definition sample_system (ext : Externals) : Backend.System ext :=
  run_task ext "s1" (run_task ext "s1" (run_task ext "s1" (run_task ext "s1"
    (after_upload ext "s1" "/tmp/t1" "report.pdf" "%PDF-1.7" (Backend.initial ext))))).

Lemma sample_system_reachable (ext : Externals) : Backend.reachable ext (sample_system ext).
Proof.
  unfold sample_system. do 4 apply reachable_run_task.
  apply reachable_after_upload; try reflexivity. apply Backend.reachable_initial.
Qed.

Lemma lifecycle_invariant_witness :
  exists s,
    Backend.sessions (Backend.world (sample_system ext_answering)) !! "s1" = Some s
    /\ Backend.lifecycle_of (Backend.status s) = Some Backend.ready.
Proof.
  exact (proj2 (proj2 (lifecycle_invariant ext_answering (sample_system ext_answering)
                         (sample_system_reachable ext_answering)))
           question answered ltac:(vm_compute; reflexivity)).
Defined.

(** ** The background task, run to its end *)

Section WholeRun.
Context (ext : Externals).
Import Backend.

Fixpoint task_run (n : nat) (sid : string) (t : Task) (w : World ext) : Task * World ext :=
  match n with
  | 0 => (t, w)
  | S n' => let '(t', w') := task_step ext sid t w in task_run n' sid t' w'
  end.

Lemma task_run_finished n sid w : task_run n sid Finished w = (Finished, w).
Proof. induction n as [|n IH]; cbn; [reflexivity|exact IH]. Qed.


End WholeRun.

(** ** The segmenter: what becomes a table unit and what reaches the splitter *)

Lemma append_assoc_str (a b c : string) : (a +:+ b) +:+ c = a +:+ (b +:+ c).
Proof.
  induction a as [|x a IH]; [reflexivity|].
  rewrite !append_cons. now rewrite IH.
Qed.

Lemma append_empty_r (a : string) : a +:+ "" = a.
Proof.
  induction a as [|x a IH]; [reflexivity|]. rewrite append_cons. now rewrite IH.
Qed.

(** The test of line 23 / 31 on an element. *)
Definition is_table (element : Element) : bool := str_in "Table" (type_repr element).

(** The texts of the other elements, each followed by a blank line. *)
Fixpoint prose_blob (elements : list Element) : string :=
  match elements with
  | [] => ""
  | element :: rest =>
      if is_table element then prose_blob rest
      else text element +:+ "

" +:+ prose_blob rest
  end.

Lemma separate_tables_spec (elements : list Element) (raw_text : string)
    (table_elements : list string) :
  separate_tables elements raw_text table_elements
  = (raw_text +:+ prose_blob elements,
     table_elements ++ map text (List.filter is_table elements)).
Proof.
  revert raw_text table_elements.
  induction elements as [|element rest IH]; intros raw_text table_elements;
    cbn [separate_tables prose_blob List.filter map].
  - now rewrite append_empty_r, app_nil_r.
  - fold (is_table element). destruct (is_table element); rewrite IH.
    + cbn [map]. now rewrite <- app_assoc.
    + now rewrite !append_assoc_str.
Qed.

Definition load_pdf_elements (p : Pipeline) (ext : Externals) (fs : FileSystem)
    (file_path output_image_dir : string)
    : Result (list string * list string * FileSystem) :=
  match p with
  | streamlit => Legacy.load_pdf_elements ext fs file_path output_image_dir
  | service => Backend.load_pdf_elements ext fs file_path output_image_dir
  end.

(** The splitter each pipeline configures. *)
Definition splitter_of (p : Pipeline) : RecursiveCharacterTextSplitter :=
  match p with
  | streamlit =>
      {| chunk_size := 2000; chunk_overlap := 400;
         separators := ["

"; "
"; " "; ""] |}
  | service =>
      {| chunk_size := 1500; chunk_overlap := 300;
         separators := ["

"; "
"; " "; ""] |}
  end.

(** In both pipelines the segmenter returns, as table units, the texts of
    the elements whose type name contains ["Table"], one unit per such
    element, unchanged and in document order; the splitter is given the texts
    of the other elements only, in document order, each followed by a blank
    line; and every element goes to exactly one of the two sides. *)
Theorem segmenter_partition (p : Pipeline) (ext : Externals) (fs : FileSystem)
    (file_path output_image_dir : string) (texts tables : list string) (fs' : FileSystem) :
  load_pdf_elements p ext fs file_path output_image_dir = Ok (texts, tables, fs') ->
  exists elements,
    partition_pdf ext fs file_path output_image_dir = Ok (elements, fs')
    /\ tables = map text (List.filter is_table elements)
    /\ (exists chunks,
          chunks = split_text ext (splitter_of p) (prose_blob elements)
          /\ texts = match p with
                     | streamlit => chunks
                     | service => List.filter (fun t => 100 <? len t) chunks
                     end)
    /\ length tables + length (List.filter (fun e => negb (is_table e)) elements)
       = length elements.
Proof.
  intros H.
  assert (Hcount : forall elements,
            length (map text (List.filter is_table elements))
            + length (List.filter (fun e => negb (is_table e)) elements)
            = length elements).
  { induction elements as [|e l IH]; [reflexivity|].
    cbn [List.filter]. destruct (is_table e); cbn [negb map length]; lia. }
  destruct p; cbn [load_pdf_elements] in H.
  - destruct (streamlit_load_inv _ _ _ _ _ _ _ H) as (elements & Hp & -> & ->).
    exists elements. rewrite separate_tables_spec. cbn [fst snd app].
    repeat split; eauto.
  - destruct (service_load_inv _ _ _ _ _ _ _ H) as (elements & Hp & -> & ->).
    exists elements. rewrite separate_tables_spec. cbn [fst snd app].
    repeat split; eauto.
Qed.

Lemma segmenter_partition_witness :
  exists elements,
    partition_pdf ext_answering no_images "/tmp/t1/report.pdf" "/tmp/t1/images"
      = Ok (elements, no_images)
    /\ ["Quarter Revenue Q3 5.2M"] = map text (List.filter is_table elements).
Proof.
  destruct (segmenter_partition service ext_answering no_images "/tmp/t1/report.pdf"
              "/tmp/t1/images" [report_chunk] ["Quarter Revenue Q3 5.2M"] no_images
              ltac:(vm_compute; reflexivity))
    as (elements & H1 & H2 & _).
  exists elements. split; assumption.
Defined.

(** A parse that raises makes the segmenter of either pipeline raise the same
    exception: nothing is caught there. *)
Theorem segmenter_propagates (p : Pipeline) (ext : Externals) (fs : FileSystem)
    (file_path output_image_dir : string) (e : Exception) :
  partition_pdf ext fs file_path output_image_dir = Raise e ->
  load_pdf_elements p ext fs file_path output_image_dir = Raise e.
Proof.
  intros H. destruct p; cbn [load_pdf_elements];
    unfold Legacy.load_pdf_elements, Backend.load_pdf_elements; now rewrite H.
Qed.

(** ** The summarizer when a read or a model call raises *)

(** The call for the image file [img_file] made as call number [i] returns. *)
Definition call_returns (ext : Externals) (fs : FileSystem) (image_dir : string)
    (i : nat) (img_file : string) : Prop :=
  exists base64_image msg,
    encode_image ext fs (os_path_join image_dir img_file) = Ok base64_image
    /\ vision_invoke ext i image_prompt (image_url base64_image) = Ok msg.

(** The call for [img_file] made as call number [i] raises [e], in the read
    of the file or in the model. *)
Definition call_raises (ext : Externals) (fs : FileSystem) (image_dir : string)
    (i : nat) (img_file : string) (e : Exception) : Prop :=
  encode_image ext fs (os_path_join image_dir img_file) = Raise e
  \/ exists base64_image,
       encode_image ext fs (os_path_join image_dir img_file) = Ok base64_image
       /\ vision_invoke ext i image_prompt (image_url base64_image) = Raise e.

Lemma loop_replies_raises ext fs image_dir images :
  forall n i img_file e,
    nth_error images i = Some img_file ->
    (forall j img_j, j < i -> nth_error images j = Some img_j ->
                     call_returns ext fs image_dir (n + j) img_j) ->
    call_raises ext fs image_dir (n + i) img_file e ->
    loop_replies ext fs image_dir n images = Raise e.
Proof.
  induction images as [|f rest IH]; intros n i img_file e Hi Hbefore Hraise.
  - destruct i; discriminate.
  - cbn [loop_replies]. destruct i as [|i]; cbn in Hi.
    + injection Hi as ->. rewrite Nat.add_0_r in Hraise.
      destruct Hraise as [Hr|(b & Hb & Hr)].
      * now rewrite Hr.
      * rewrite Hb. cbn [mbind result_bind]. now rewrite Hr.
    + destruct (Hbefore 0 f (Nat.lt_0_succ i) eq_refl) as (b & msg & Hb & Hm).
      rewrite Nat.add_0_r in Hm. rewrite Hb. cbn [mbind result_bind]. rewrite Hm.
      cbn [mbind result_bind].
      rewrite (IH (S n) i img_file e Hi).
      * reflexivity.
      * intros j img_j Hj Hnth. rewrite Nat.add_succ_l, <- Nat.add_succ_r.
        apply Hbefore; [lia|exact Hnth].
      * now rewrite Nat.add_succ_l, <- Nat.add_succ_r.
Qed.

(** When the read or the model call for one image raises, after the calls for
    the images before it returned, the summarizer of either pipeline raises
    that exception: the summaries made so far are not returned. *)
Theorem summarizer_aborts (p : Pipeline) (ext : Externals) (fs : FileSystem)
    (image_dir : string) (entries : list string) (i : nat) (img_file : string)
    (e : Exception) :
  fs image_dir = Some (Dir entries) ->
  nth_error (images_of p fs image_dir) i = Some img_file ->
  (forall j img_j, j < i -> nth_error (images_of p fs image_dir) j = Some img_j ->
                   call_returns ext fs image_dir j img_j) ->
  call_raises ext fs image_dir i img_file e ->
  generate_image_summaries p ext fs image_dir = Raise e.
Proof.
  intros Hd Hi Hbefore Hraise.
  assert (Hloop : loop_replies ext fs image_dir 0 (images_of p fs image_dir) = Raise e).
  { eapply (loop_replies_raises ext fs image_dir _ 0 i img_file e); eauto. }
  unfold images_of, listing in Hloop. rewrite Hd in Hloop.
  destruct p; cbn [generate_image_summaries image_suffixes] in *.
  - unfold Legacy.generate_image_summaries, os_listdir. rewrite Hd.
    cbn [mbind result_bind]. rewrite jpg_only, summarize_loop_replies. now rewrite Hloop.
  - unfold Backend.generate_image_summaries, os_path_exists, os_listdir. rewrite Hd.
    cbn [negb mbind result_bind]. rewrite summarize_loop_replies. now rewrite Hloop.
Qed.

(** The model answers the first image and is unreachable for the second. *)
Definition flaky_replies (n : nat) : Result string :=
  match n with
  | 0 => Ok "Bar chart: revenue by quarter."
  | _ => Raise (ExternalError "429 rate limited")
  end.

Definition ext_flaky : Externals :=
  sample_externals report_elements chart_dir flaky_replies answering_chain.

Lemma summarizer_aborts_witness :
  Backend.generate_image_summaries ext_flaky chart_dir "/tmp/t1/images"
  = Raise (ExternalError "429 rate limited").
Proof.
  apply (summarizer_aborts service ext_flaky chart_dir "/tmp/t1/images"
           ["figure-2.jpg"; "notes.txt"; "figure-3.png"; "figure-1.jpg"]
           1 "figure-2.jpg" (ExternalError "429 rate limited")).
  - reflexivity.
  - vm_compute. reflexivity.
  - intros j img_j Hj Hnth. assert (j = 0) as -> by lia.
    vm_compute in Hnth. injection Hnth as <-.
    exists "JFIF-1", "Bar chart: revenue by quarter.". split; vm_compute; reflexivity.
  - right. exists "JFIF-2". split; vm_compute; reflexivity.
Defined.

(** ** One run of the background task *)

Section BackgroundRun.
Context (ext : Externals).
Import Backend.

(** For a session [sid] that is there and satisfies [P]: it is still there
    after [m], and [Q] holds of what [m] returned and of the session. *)
Definition stri {A} (sid : string) (P : Session -> Prop) (m : Handler ext A)
    (Q : Result A -> Session -> Prop) : Prop :=
  forall w s,
    sessions w !! sid = Some s -> P s ->
    exists s', sessions (snd (m w)) !! sid = Some s' /\ Q (fst (m w)) s'.

Lemma stri_bind {A B} sid P (m : Handler ext A) (f : A -> Handler ext B) Q1 Q :
  stri sid P m Q1 ->
  (forall a, stri sid (Q1 (Ok a)) (f a) Q) ->
  (forall e s, Q1 (Raise e) s -> Q (Raise e) s) ->
  stri sid P (m ≫= f) Q.
Proof.
  intros Hm Hf Hraise w s Hs HP. unfold mbind, handler_bind, h_bind.
  destruct (Hm w s Hs HP) as (s1 & Hs1 & HQ1).
  destruct (m w) as [[a|e] w1]; cbn [fst snd] in *.
  - exact (Hf a w1 s1 Hs1 HQ1).
  - exists s1. auto.
Qed.

Lemma stri_try_except {A} sid P (m : Handler ext A) (h : Exception -> Handler ext A) Q1 Q :
  stri sid P m Q1 ->
  (forall a s, Q1 (Ok a) s -> Q (Ok a) s) ->
  (forall e, stri sid (Q1 (Raise e)) (h e) Q) ->
  stri sid P (try_except m h) Q.
Proof.
  intros Hm Hok Hh w s Hs HP. unfold try_except.
  destruct (Hm w s Hs HP) as (s1 & Hs1 & HQ1).
  destruct (m w) as [[a|e] w1]; cbn [fst snd] in *.
  - exists s1. auto.
  - exact (Hh e w1 s1 Hs1 HQ1).
Qed.

Lemma stri_consequence {A} sid (P P' : Session -> Prop) (m : Handler ext A)
    (Q Q' : Result A -> Session -> Prop) :
  stri sid P m Q -> (forall s, P' s -> P s) -> (forall r s, Q r s -> Q' r s) ->
  stri sid P' m Q'.
Proof.
  intros Hm HP HQ w s Hs HP'. destruct (Hm w s Hs (HP s HP')) as (s' & H1 & H2). eauto.
Qed.

Lemma stri_ret {A} sid P (a : A) : stri sid P (mret a) (fun r s' => r = Ok a /\ P s').
Proof. intros w s Hs HP. exists s. auto. Qed.

Lemma stri_ret_with {A} sid P (a : A) (Q : Result A -> Session -> Prop) :
  (forall s, P s -> Q (Ok a) s) -> stri sid P (mret a) Q.
Proof. intros H w s Hs HP. exists s. auto. Qed.

Lemma stri_quiet {A} sid P (m : Handler ext A) :
  (forall w, sessions (snd (m w)) = sessions w) ->
  stri sid P m (fun _ s' => P s').
Proof. intros Hq w s Hs HP. exists s. now rewrite Hq. Qed.

Lemma stri_update sid P f :
  stri sid P (update_session ext sid f) (fun r s' => r = Ok tt /\ exists s, P s /\ s' = f s).
Proof.
  intros w s Hs HP. unfold update_session. rewrite Hs.
  cbn [fst snd sessions with_sessions]. rewrite lookup_insert_eq.
  exists (f s). split; [reflexivity|]. split; [reflexivity|]. now exists s.
Qed.

Lemma run_create_vector_db_stri sid P texts sums paths db :
  stri sid P (run_create_vector_db ext texts sums paths db)
    (fun r s' => r = Ok tt /\ P s').
Proof.
  intros w s Hs HP. exists s. rewrite run_create_vector_db_quiet.
  split; [exact Hs|].
  exact (conj (run_create_vector_db_returns ext texts sums paths db w) HP).
Qed.

(** The fields of a session that only [bg_build] writes, and those that the
    background task never writes. *)
Definition same_store (s0 s : Session) : Prop :=
  db_path s = db_path s0 /\ document_name s = document_name s0.

Definition same_upload (s0 s : Session) : Prop :=
  temp_dir s = temp_dir s0 /\ file_path s = file_path s0
  /\ chat_history s = chat_history s0.

Definition untouched (s0 s : Session) : Prop := same_store s0 s /\ same_upload s0 s.

Lemma stri_update_untouched sid s0 f :
  (forall s, untouched s0 s -> untouched s0 (f s)) ->
  stri sid (untouched s0) (update_session ext sid f)
    (fun r s' => r = Ok tt /\ untouched s0 s').
Proof.
  intros Hf. apply (stri_consequence sid (untouched s0) (untouched s0) _ _ _
                      (stri_update sid (untouched s0) f)).
  - auto.
  - intros r s' (Hr & s & Hs & ->). auto.
Qed.

Lemma set_status_untouched s0 v s : untouched s0 s -> untouched s0 (set_status v s).
Proof. intros H. exact H. Qed.

Lemma set_message_untouched s0 v s : untouched s0 s -> untouched s0 (set_message v s).
Proof. intros H. exact H. Qed.

Lemma bg_begin_stri sid s0 :
  stri sid (untouched s0) (bg_begin ext sid) (fun _ s' => untouched s0 s').
Proof.
  unfold bg_begin. eapply stri_bind.
  - apply stri_update_untouched, set_status_untouched.
  - intros []. eapply stri_consequence;
      [apply (stri_update_untouched sid s0), set_message_untouched| |].
    + now intros s [_ H].
    + now intros r s [_ H].
  - now intros e s [_ H].
Qed.

Lemma bg_parse_stri sid s0 file_path temp_dir :
  stri sid (untouched s0) (bg_parse ext sid file_path temp_dir)
    (fun _ s' => untouched s0 s').
Proof.
  unfold bg_parse. eapply stri_bind.
  - apply stri_quiet, run_makedirs_quiet.
  - intros []. eapply stri_bind.
    + apply stri_quiet, run_load_pdf_elements_quiet.
    + intros r. eapply stri_bind.
      * apply stri_update_untouched, set_message_untouched.
      * intros []. apply stri_ret_with. now intros s [_ H].
      * now intros e s [_ H].
    + auto.
  - auto.
Qed.

Lemma bg_summarize_stri sid s0 temp_dir :
  stri sid (untouched s0) (bg_summarize ext sid temp_dir) (fun _ s' => untouched s0 s').
Proof.
  unfold bg_summarize. eapply stri_bind.
  - apply stri_quiet, run_generate_image_summaries_quiet.
  - intros r. eapply stri_bind.
    + apply stri_update_untouched, set_message_untouched.
    + intros []. apply stri_ret_with. now intros s [_ H].
    + now intros e s [_ H].
  - auto.
Qed.

(** What [bg_build] leaves in the session. *)
Definition made_ready (s0 : Session) (file_name temp_dir : string) (s : Session) : Prop :=
  status s = "ready"
  /\ message s = "Ready for questions!"
  /\ db_path s = Some (os_path_join temp_dir "chroma_db")
  /\ document_name s = Some file_name
  /\ same_upload s0 s.

(** What the [except] branch leaves in the session. *)
Definition made_error (s0 : Session) (s : Session) : Prop :=
  exists e, status s = "error" /\ message s = exc_str e /\ untouched s0 s.

Lemma bg_build_stri sid s0 file_name temp_dir texts sums paths :
  stri sid (untouched s0) (bg_build ext sid file_name temp_dir texts sums paths)
    (fun r s' => r = Ok tt /\ made_ready s0 file_name temp_dir s').
Proof.
  unfold bg_build. eapply stri_bind.
  - apply run_create_vector_db_stri.
  - intros ?. eapply stri_bind; [apply stri_update| |].
    + intros []. eapply stri_bind; [apply stri_update| |].
      * intros []. eapply stri_bind; [apply stri_update| |].
        -- intros []. eapply (stri_consequence sid _ _ _ _ _ (stri_update sid _ _));
             [intros s H; exact H|].
           intros r s (Hr & s4 & (_ & s3 & (_ & s2 & (_ & s1 & Hu & ->) & ->) & ->) & ->).
           split; [exact Hr|]. destruct Hu as [_ [_ Hup]].
           unfold made_ready. cbn. repeat split; apply Hup.
        -- intros e s [H _]. discriminate.
      * intros e s [H _]. discriminate.
    + intros e s [H _]. discriminate.
  - intros e s [H _]. discriminate.
Qed.

Lemma bg_except_stri sid s0 e :
  stri sid (untouched s0) (bg_except ext sid e)
    (fun r s' => r = Ok tt /\ made_error s0 s').
Proof.
  unfold bg_except. eapply stri_bind; [apply stri_update| |].
  - intros []. eapply (stri_consequence sid _ _ _ _ _ (stri_update sid _ _));
      [intros s H; exact H|].
    intros r s (Hr & s2 & (_ & s1 & Hu & ->) & ->).
    split; [exact Hr|]. exists e. repeat split; apply Hu.
  - intros e' s [H _]. discriminate.
Qed.

#[local] Hint Resolve update_session_framed : keeps.
#[local] Hint Extern 1 (@preserves _ _ _ _) =>
  apply quiet_framed;
  first [ apply run_makedirs_quiet | apply run_load_pdf_elements_quiet
        | apply run_generate_image_summaries_quiet | apply run_create_vector_db_quiet ]
  : keeps.

Lemma untouched_refl s : untouched s s.
Proof. repeat split. Qed.


(** For an id that is not in [sessions] (the session was deleted before the
    task ran), [process_pdf_background] raises [KeyError] out of its [except]
    branch and leaves [sessions] as it was. *)
Theorem ingestion_of_deleted_session (sid file_path file_name temp_dir : string)
    (w : World ext) :
  sessions w !! sid = None ->
  let r := process_pdf_background ext sid file_path file_name temp_dir w in
  fst r = Raise (KeyError sid) /\ sessions (snd r) = sessions w.
Proof.
  intros Hs. cbv zeta.
  unfold process_pdf_background, try_except, bg_begin, bg_except.
  unfold mbind, handler_bind, h_bind, update_session. rewrite Hs. cbn [fst snd].
  rewrite Hs. split; reflexivity.
Qed.

End BackgroundRun.

Definition uploaded (ext : Externals) : Backend.World ext :=
  snd (Backend.upload_pdf ext "s1" "/tmp/t1" "report.pdf" "%PDF-1.7"
         (Backend.world (Backend.initial ext))).

Definition uploaded_session : Backend.Session :=
  {| Backend.status := "uploading";
     Backend.message := "File uploaded, starting processing...";
     Backend.temp_dir := "/tmp/t1";
     Backend.file_path := "/tmp/t1/report.pdf";
     Backend.chat_history := Some [];
     Backend.db_path := None;
     Backend.document_name := None |}.


Lemma ingestion_of_deleted_session_witness :
  fst (Backend.process_pdf_background ext_answering "s1" "/tmp/t1/report.pdf" "report.pdf"
         "/tmp/t1" (Backend.world (Backend.initial ext_answering)))
  = Raise (KeyError "s1").
Proof.
  exact (proj1 (ingestion_of_deleted_session ext_answering "s1" "/tmp/t1/report.pdf"
                  "report.pdf" "/tmp/t1" (Backend.world (Backend.initial ext_answering))
                  ltac:(vm_compute; reflexivity))).
Defined.

(** ** What a successful ingestion stores *)

Section IngestionStore.
Context (ext : Externals).
Import Backend.

(** The parts of the world that [update_session] does not write. *)
Definition rest_same (w0 w : World ext) : Prop :=
  disk w = disk w0 /\ vector_dbs w = vector_dbs w0
  /\ _embedding_function w = _embedding_function w0.

Lemma update_session_rest sid f w : rest_same w (snd (update_session ext sid f w)).
Proof.
  unfold update_session, rest_same. destruct (sessions w !! sid); cbn; auto.
Qed.

Lemma bg_begin_rest sid w : rest_same w (snd (bg_begin ext sid w)).
Proof.
  unfold bg_begin, mbind, handler_bind, h_bind.
  pose proof (update_session_rest sid (set_status "processing") w) as H1.
  destruct (update_session ext sid (set_status "processing") w) as [[[]|e] w1];
    cbn [snd] in *; [|exact H1].
  pose proof (update_session_rest sid (set_message "Extracting text and images...") w1)
    as H2.
  unfold rest_same in *. intuition congruence.
Qed.

Lemma bg_parse_inv sid file_path temp_dir w texts tables w' :
  bg_parse ext sid file_path temp_dir w = (Ok (texts, tables), w') ->
  exists fs1 fs2,
    os_makedirs (disk w) (os_path_join temp_dir "images") = Ok fs1
    /\ load_pdf_elements ext fs1 file_path (os_path_join temp_dir "images")
       = Ok (texts, tables, fs2)
    /\ disk w' = fs2
    /\ vector_dbs w' = vector_dbs w
    /\ _embedding_function w' = _embedding_function w.
Proof.
  unfold bg_parse, mbind, handler_bind, h_bind, run_makedirs, run_load_pdf_elements.
  destruct (os_makedirs (disk w) (os_path_join temp_dir "images")) as [fs1|e];
    [|discriminate].
  cbn [disk with_disk].
  destruct (load_pdf_elements ext fs1 file_path (os_path_join temp_dir "images"))
    as [[[t tb] fs2]|e] eqn:Eload; [|discriminate].
  unfold update_session. cbn [sessions with_disk].
  destruct (sessions w !! sid); [|discriminate].
  intros H. injection H as <- <- <-. exists fs1, fs2.
  split; [reflexivity|]. split; [exact Eload|]. repeat split.
Qed.

Lemma bg_summarize_inv sid temp_dir w sums paths w' :
  bg_summarize ext sid temp_dir w = (Ok (sums, paths), w') ->
  generate_image_summaries ext (disk w) (os_path_join temp_dir "images")
    = Ok (sums, paths)
  /\ rest_same w w'.
Proof.
  unfold bg_summarize, mbind, handler_bind, h_bind, run_generate_image_summaries.
  destruct (generate_image_summaries ext (disk w) (os_path_join temp_dir "images"))
    as [[s p]|e]; [|discriminate].
  unfold update_session. destruct (sessions w !! sid); [|discriminate].
  intros H. injection H as <- <- <-. split; [reflexivity|]. repeat split.
Qed.

(** The store directory after [bg_build]: what it held, then the documents of
    this build. *)
Lemma bg_build_store sid file_name temp_dir texts sums paths w :
  vector_dbs (snd (bg_build ext sid file_name temp_dir texts sums paths w))
    !! os_path_join temp_dir "chroma_db"
  = Some (default [] (vector_dbs w !! os_path_join temp_dir "chroma_db")
          ++ collection (fst (create_vector_db ext texts sums paths
                                (os_path_join temp_dir "chroma_db")
                                (_embedding_function w)))).
Proof.
  unfold bg_build, mbind, handler_bind, h_bind, run_create_vector_db.
  destruct (create_vector_db ext texts sums paths (os_path_join temp_dir "chroma_db")
              (_embedding_function w)) as [store g'].
  cbn [fst].
  set (w1 := with_vector_dbs _ _).
  assert (H1 : vector_dbs w1 !! os_path_join temp_dir "chroma_db"
               = Some (default [] (vector_dbs w !! os_path_join temp_dir "chroma_db")
                       ++ collection store)).
  { subst w1. cbn [vector_dbs with_vector_dbs]. apply lookup_insert_eq. }
  repeat match goal with
    | |- context [update_session ext sid ?f ?x] =>
        let H := fresh "Hu" in
        pose proof (update_session_rest sid f x) as H;
        destruct (update_session ext sid f x) as [[[]|?] ?];
        cbn [snd] in *; destruct H as (_ & H & _)
    end; cbn [snd]; congruence.
Qed.

Lemma failed_not_ready sid e w s :
  sessions w !! sid = Some s ->
  forall s', sessions (snd (bg_except ext sid e w)) !! sid = Some s' ->
             status s' <> "ready".
Proof.
  intros Hs s' Hs'.
  destruct (bg_except_tri ext sid (status s) e w s Hs eq_refl) as (s2 & H2 & _ & Hst).
  rewrite Hs' in H2. injection H2 as <-. rewrite Hst. discriminate.
Qed.

Lemma kept_pairs_kept image_dir images replies :
  Forall (fun msg => kept msg = true) (map snd (kept_pairs image_dir images replies)).
Proof.
  unfold kept_pairs. apply List.Forall_forall. intros msg Hin.
  apply List.in_map_iff in Hin as ([p m] & <- & Hin).
  apply List.filter_In in Hin as [_ Hk]. exact Hk.
Qed.

(** When the background task leaves a session with status ["ready"], every
    stage returned: the image directory was made, the parse and the summarizer
    returned, and the store directory of the session holds what it held before
    followed by the store built from the text chunks and the image summaries.
    Those chunks have more than 100 characters each, no summary is a ["skip"]
    reply, and there are as many summaries as paths. *)
Theorem ingestion_store (sid file_path file_name temp_dir : string) (w : World ext)
    (s s' : Session) :
  sessions w !! sid = Some s ->
  sessions (snd (process_pdf_background ext sid file_path file_name temp_dir w)) !! sid
    = Some s' ->
  status s' = "ready" ->
  exists texts tables sums paths fs1 fs2,
    os_makedirs (disk w) (os_path_join temp_dir "images") = Ok fs1
    /\ load_pdf_elements ext fs1 file_path (os_path_join temp_dir "images")
       = Ok (texts, tables, fs2)
    /\ generate_image_summaries ext fs2 (os_path_join temp_dir "images") = Ok (sums, paths)
    /\ vector_dbs (snd (process_pdf_background ext sid file_path file_name temp_dir w))
         !! os_path_join temp_dir "chroma_db"
       = Some (default [] (vector_dbs w !! os_path_join temp_dir "chroma_db")
               ++ collection (fst (create_vector_db ext texts sums paths
                                     (os_path_join temp_dir "chroma_db")
                                     (_embedding_function w))))
    /\ Forall (fun t => 100 < len t) texts
    /\ Forall (fun msg => kept msg = true) sums
    /\ length sums = length paths.
Proof.
  intros Hs Hs' Hready.
  unfold process_pdf_background, try_except in *.
  unfold mbind, handler_bind, h_bind in *.
  destruct (bg_begin_tri ext sid (status s) w s Hs eq_refl) as (s1 & Hs1 & _).
  pose proof (bg_begin_rest sid w) as (Hd1 & Hv1 & He1).
  destruct (bg_begin ext sid w) as [[[]|e] w1]; cbn [fst snd] in *.
  2:{ exfalso. exact (failed_not_ready sid e w1 s1 Hs1 s' Hs' Hready). }
  destruct (bg_parse_tri ext sid (status s1) file_path temp_dir w1 s1 Hs1 eq_refl)
    as (s2 & Hs2 & _).
  destruct (bg_parse ext sid file_path temp_dir w1) as [[[texts tables]|e] w2] eqn:E2;
    cbn [fst snd] in *.
  2:{ exfalso. exact (failed_not_ready sid e w2 s2 Hs2 s' Hs' Hready). }
  destruct (bg_parse_inv _ _ _ _ _ _ _ E2) as (fs1 & fs2 & Hmk & Hload & Hd2 & Hv2 & He2).
  destruct (bg_summarize_tri ext sid (status s2) temp_dir w2 s2 Hs2 eq_refl)
    as (s3 & Hs3 & _).
  destruct (bg_summarize ext sid temp_dir w2) as [[[sums paths]|e] w3] eqn:E3;
    cbn [fst snd] in *.
  2:{ exfalso. exact (failed_not_ready sid e w3 s3 Hs3 s' Hs' Hready). }
  destruct (bg_summarize_inv _ _ _ _ _ _ E3) as (Hsum & Hd3 & Hv3 & He3).
  pose proof (bg_build_store sid file_name temp_dir texts sums paths w3) as Hstore.
  destruct (bg_build_tri ext sid (status s3) file_name temp_dir texts sums paths
              w3 s3 Hs3 eq_refl) as (s4 & _ & Hr4 & _).
  destruct (bg_build ext sid file_name temp_dir texts sums paths w3) as [[[]|e] w4];
    cbn [fst snd] in *; [|discriminate].
  exists texts, tables, sums, paths, fs1, fs2.
  rewrite Hd1 in Hmk. rewrite Hd2 in Hsum.
  rewrite Hv3, Hv2, Hv1, He3, He2, He1 in Hstore.
  split; [exact Hmk|]. split; [exact Hload|]. split; [exact Hsum|].
  split; [exact Hstore|].
  destruct (service_load_inv _ _ _ _ _ _ _ Hload) as (elements & _ & _ & Htexts).
  destruct (generate_image_summaries_inv service ext fs2 _ sums paths Hsum)
    as (replies & _ & -> & ->).
  split; [|split].
  - subst texts. apply List.Forall_forall. intros t Ht.
    apply List.filter_In in Ht as [_ Ht]. now apply Nat.ltb_lt.
  - apply kept_pairs_kept.
  - now rewrite !length_map.
Qed.

End IngestionStore.

Lemma ingestion_store_witness :
  exists texts sums paths,
    Backend.vector_dbs
      (snd (Backend.process_pdf_background ext_charts "s1" "/tmp/t1/report.pdf"
              "report.pdf" "/tmp/t1" (uploaded ext_charts)))
      !! os_path_join "/tmp/t1" "chroma_db"
    = Some (default [] (Backend.vector_dbs (uploaded ext_charts)
                          !! os_path_join "/tmp/t1" "chroma_db")
            ++ collection (fst (Backend.create_vector_db ext_charts texts sums paths
                                  (os_path_join "/tmp/t1" "chroma_db")
                                  (Backend._embedding_function (uploaded ext_charts)))))
    /\ Forall (fun t => 100 < len t) texts
    /\ Forall (fun msg => kept msg = true) sums
    /\ length sums = length paths.
Proof.
  destruct (ingestion_store ext_charts "s1" "/tmp/t1/report.pdf" "report.pdf" "/tmp/t1"
              (uploaded ext_charts) uploaded_session served_session
              ltac:(vm_compute; reflexivity) ltac:(vm_compute; reflexivity)
              ltac:(reflexivity))
    as (texts & tables & sums & paths & fs1 & fs2 & _ & _ & _ & Hstore & Ht & Hk & Hl).
  exists texts, sums, paths. auto.
Defined.

(** ** Uploading, asking for the status, deleting *)

Section SessionRoundTrips.
Context (ext : Externals).
Import Backend.

(** A file whose name does not end in [".pdf"] (in lower case) is refused
    with status 400 before anything is written: the world is unchanged. *)
Lemma upload_pdf_refuses (sid td filename content : string) (w : World ext) :
  endswith ".pdf" filename = false ->
  upload_pdf ext sid td filename content w
  = (Raise (HTTPException 400 "Only PDF files are allowed"), w).
Proof. intros H. unfold upload_pdf. now rewrite H. Qed.


(** [path] is the directory [dir] or lies below it. *)
Definition under (dir path : string) : bool :=
  String.eqb path dir || startswith (dir +:+ "/") path.


(** Deleting an id that is not there answers 404 and changes nothing. *)
Lemma delete_session_unknown (sid : string) (w : World ext) :
  sessions w !! sid = None ->
  delete_session ext sid w = (Raise (HTTPException 404 "Session not found"), w).
Proof. intros H. unfold delete_session. now rewrite H. Qed.

End SessionRoundTrips.

(** ** The two histories of a session *)

Section Histories.
Context (ext : Externals).
Import Backend.

(** An answered chat request adds the question and the answer, in this order,
    to the chat history of the session (as the history endpoint then returns
    it) and to the message history the chain reads on the next request; the
    sessions and the histories of the other ids are as before. *)
Theorem chat_records_turns (request : ChatRequest) (w : World ext) (resp : ChatResponse) :
  fst (chat ext request w) = Ok resp ->
  let sid := req_session_id request in
  let w' := snd (chat ext request w) in
  exists session,
    sessions w !! sid = Some session
    /\ fst (get_chat_history ext sid w')
       = Ok (default [] (chat_history session)
             ++ [ {| role := "user"; content := req_message request |};
                  {| role := "assistant"; content := resp_answer resp |} ])
    /\ default [] (message_stores w' !! sid)
       = default [] (message_stores w !! sid)
         ++ [HumanMessage (req_message request); AIMessage (resp_answer resp)]
    /\ (forall sid', sid' <> sid ->
          sessions w' !! sid' = sessions w !! sid'
          /\ default [] (message_stores w' !! sid')
             = default [] (message_stores w !! sid')).
Proof.
  intros Hok. cbv zeta.
  destruct (chat_ok_inv ext request w resp Hok)
    as (session & db & response & Hs & Hr & Hdb & Hc & ->).
  exists session. split; [exact Hs|].
  rewrite (chat_ready ext request w session) by assumption.
  unfold try_except. rewrite (chat_try_unfold ext request session db w Hdb). cbv zeta.
  rewrite Hc. cbn [fst snd resp_answer].
  destruct (before_chain_frame ext request db w) as (Hsess & Hmsg & _).
  unfold store_turns, add_messages, get_chat_history.
  cbn [fst snd sessions message_stores with_sessions with_message_stores with_chain_log].
  rewrite Hsess. split; [|split].
  - rewrite lookup_alter, decide_True by reflexivity. rewrite Hs. reflexivity.
  - rewrite lookup_insert_eq. cbn. now rewrite Hmsg.
  - intros sid' Hne. split.
    + rewrite lookup_alter, decide_False by congruence. reflexivity.
    + rewrite lookup_insert_ne by congruence. apply Hmsg.
Qed.

(** A chat request that raises leaves the sessions and the messages of every
    history as they were. *)
Lemma chat_raise_frame (request : ChatRequest) (w : World ext) (e : Exception) :
  fst (chat ext request w) = Raise e ->
  sessions (snd (chat ext request w)) = sessions w
  /\ forall sid', default [] (message_stores (snd (chat ext request w)) !! sid')
                  = default [] (message_stores w !! sid').
Proof.
  intros Hraise.
  destruct (sessions w !! req_session_id request) as [session|] eqn:Hs.
  2:{ rewrite chat_unknown by assumption. auto. }
  destruct (String.eqb_spec (status session) "ready") as [Hr|Hr].
  2:{ rewrite (chat_not_ready ext request w session) by assumption. auto. }
  destruct (db_path session) as [db|] eqn:Hdb.
  2:{ rewrite (chat_ready ext request w session) by assumption.
      unfold try_except, chat_try. rewrite Hdb. cbn. auto. }
  destruct (chain_invoke ext (chain_of ext db w) (history_of ext request w)
              (req_message request)) as [response|e'] eqn:Hc.
  - rewrite (chat_ok ext request w session db response) in Hraise by assumption.
    discriminate.
  - rewrite (chat_raise ext request w session db e') by assumption. cbn [snd].
    destruct (before_chain_frame ext request db w) as (Hsess & Hmsg & _).
    split; [exact Hsess|exact Hmsg].
Qed.

(** A chat message as an entry of the chat history. *)
Definition turn_of (m : Message) : Turn :=
  match m with
  | HumanMessage c => {| role := "user"; content := c |}
  | AIMessage c => {| role := "assistant"; content := c |}
  end.

(** The chat history of every session is its message history, message by
    message. *)
Definition mirrored (w : World ext) : Prop :=
  forall sid s,
    sessions w !! sid = Some s ->
    default [] (chat_history s) = map turn_of (default [] (message_stores w !! sid)).

(** An id that was never issued has no messages. *)
Definition no_stale (sys : System ext) : Prop :=
  forall sid, tasks sys !! sid = None ->
              default [] (message_stores (world sys) !! sid) = [].

(** Against a world [w0]: the message histories are those of [w0], and every
    session has the chat history it has in [w0]. *)
Definition history_kept (w0 w : World ext) : Prop :=
  message_stores w = message_stores w0
  /\ forall sid s',
       sessions w !! sid = Some s' ->
       exists s, sessions w0 !! sid = Some s /\ chat_history s' = chat_history s.

Lemma history_kept_refl w : history_kept w w.
Proof. split; eauto. Qed.

Lemma update_session_history sid w0 f :
  (forall s, chat_history (f s) = chat_history s) ->
  preserves (history_kept w0) (update_session ext sid f).
Proof.
  intros Hf w [Hm Hh]. unfold update_session, history_kept.
  destruct (sessions w !! sid) as [s|] eqn:Hs;
    cbn [snd sessions message_stores with_sessions]; [|auto].
  split; [exact Hm|]. intros sid0 s'.
  destruct (decide (sid = sid0)) as [<-|Hne].
  - rewrite lookup_insert_eq. intros [= <-].
    destruct (Hh sid s Hs) as (s0 & H0 & Hc). exists s0. now rewrite Hf.
  - rewrite lookup_insert_ne by assumption. apply Hh.
Qed.

Lemma quiet_history {A} w0 (m : Handler ext A) :
  (forall w, sessions (snd (m w)) = sessions w
             /\ message_stores (snd (m w)) = message_stores w) ->
  preserves (history_kept w0) m.
Proof.
  intros Hq w H. unfold history_kept. destruct (Hq w) as [-> ->]. exact H.
Qed.

#[local] Hint Extern 1 (@preserves _ _ _ (update_session _ _ _)) =>
  apply update_session_history; intros; reflexivity : keeps.
#[local] Hint Extern 1 (@preserves _ _ _ (run_makedirs _ _)) =>
  apply quiet_history; intros ?; unfold run_makedirs;
  destruct (os_makedirs _ _); split; reflexivity : keeps.
#[local] Hint Extern 1 (@preserves _ _ _ (run_load_pdf_elements _ _ _)) =>
  apply quiet_history; intros ?; unfold run_load_pdf_elements;
  destruct (load_pdf_elements _ _ _ _) as [[[? ?] ?]|]; split; reflexivity : keeps.
#[local] Hint Extern 1 (@preserves _ _ _ (run_generate_image_summaries _ _)) =>
  apply quiet_history; intros ?; split; reflexivity : keeps.
#[local] Hint Extern 1 (@preserves _ _ _ (run_create_vector_db _ _ _ _ _)) =>
  apply quiet_history; intros ?; unfold run_create_vector_db;
  destruct (create_vector_db _ _ _ _ _ _); split; reflexivity : keeps.

Lemma task_step_history sid t w : history_kept w (snd (task_step ext sid t w)).
Proof.
  destruct t; cbn [task_step]; try apply history_kept_refl;
    (apply guarded_preserves;
     [ unfold bg_begin, bg_parse, bg_summarize, bg_build; keeps
     | intros e; unfold bg_except; keeps
     | apply history_kept_refl ]).
Qed.

Lemma map_turn_of_app (l1 l2 : list Message) :
  map turn_of (l1 ++ l2) = map turn_of l1 ++ map turn_of l2.
Proof. apply map_app. Qed.

Lemma step_histories sys sys' :
  consistent ext sys -> mirrored (world sys) -> no_stale sys ->
  sys_step ext sys sys' ->
  mirrored (world sys') /\ no_stale sys'.
Proof.
  intros Hc Hm Hn Hstep.
  destruct Hstep as
    [sys sid td fn c r w' Ht Hs Hu | sys sid td fn c e w' Hu | sys sid t t' w' Ht Hts
    | sys req r w' Hch | sys sid r w' Hg | sys sid r w' Hg | sys sid r w' Hd];
    unfold mirrored, no_stale in *; cbn [world tasks] in *.
  - unfold upload_pdf in Hu. destruct (negb _); [discriminate|].
    injection Hu as _ <-. cbn [sessions message_stores with_sessions with_disk]. split.
    + intros sid0 s0. destruct (decide (sid = sid0)) as [<-|Hne].
      * rewrite lookup_insert_eq. intros [= <-]. cbn. now rewrite (Hn sid Ht).
      * rewrite lookup_insert_ne by assumption. apply Hm.
    + intros sid0. destruct (decide (sid = sid0)) as [<-|Hne].
      * now rewrite lookup_insert_eq.
      * rewrite lookup_insert_ne by assumption. apply Hn.
  - apply upload_pdf_refused in Hu. subst w'. auto.
  - pose proof (task_step_history sid t (world sys)) as [Hmsg Hh].
    rewrite Hts in Hmsg, Hh. cbn [snd] in *. split.
    + intros sid0 s0 Hs0. destruct (Hh sid0 s0 Hs0) as (s & Hs & Hch).
      rewrite Hch, Hmsg. now apply Hm.
    + intros sid0. rewrite Hmsg. destruct (decide (sid = sid0)) as [<-|Hne].
      * now rewrite lookup_insert_eq.
      * rewrite lookup_insert_ne by assumption. apply Hn.
  - assert (Hw' : w' = snd (chat ext req (world sys))) by now rewrite Hch.
    assert (Hr : r = fst (chat ext req (world sys))) by now rewrite Hch.
    destruct r as [resp|e].
    + destruct (chat_records_turns req (world sys) resp (eq_sym Hr))
        as (session & Hs & Hget & Hmsgs & Hother).
      rewrite <- Hw' in *. split.
      * intros sid0 s0 Hs0. destruct (decide (sid0 = req_session_id req)) as [->|Hne].
        -- unfold get_chat_history in Hget. rewrite Hs0 in Hget. cbn in Hget.
           injection Hget as ->. rewrite Hmsgs, map_turn_of_app.
           now rewrite (Hm _ session Hs).
        -- destruct (Hother sid0 Hne) as [H1 H2]. rewrite H2. apply Hm.
           now rewrite <- H1.
      * intros sid0 Ht0. destruct (decide (sid0 = req_session_id req)) as [->|Hne].
        -- destruct (Hc _ session Hs) as (t & Ht & _). congruence.
        -- destruct (Hother sid0 Hne) as [_ H2]. rewrite H2. now apply Hn.
    + destruct (chat_raise_frame req (world sys) e (eq_sym Hr)) as [Hsess Hmsgs].
      rewrite <- Hw' in *. split.
      * intros sid0 s0. rewrite Hsess, Hmsgs. apply Hm.
      * intros sid0. rewrite Hmsgs. apply Hn.
  - unfold get_status in Hg.
    destruct (sessions (world sys) !! sid); injection Hg as _ <-; auto.
  - unfold get_chat_history in Hg.
    destruct (sessions (world sys) !! sid); injection Hg as _ <-; auto.
  - unfold delete_session in Hd.
    destruct (sessions (world sys) !! sid) as [session|]; injection Hd as _ <-; [|auto].
    cbn [sessions message_stores with_sessions with_disk]. split; [|exact Hn].
    intros sid0 s0 H0. apply lookup_delete_Some in H0 as [_ H0]. now apply Hm.
Qed.

(** In every reachable state of the service, what the history endpoint
    returns for a session is, turn by turn, the message history that the
    chain is given on the next chat request of that session. *)
Theorem histories_agree (sys : System ext) :
  reachable ext sys ->
  forall sid s,
    sessions (world sys) !! sid = Some s ->
    fst (get_chat_history ext sid (world sys))
    = Ok (map turn_of (default [] (message_stores (world sys) !! sid))).
Proof.
  intros Hr.
  assert (H : mirrored (world sys) /\ no_stale sys).
  { induction Hr as [|sys sys' Hr IH Hstep].
    - split.
      + intros sid s Hs. cbn in Hs. rewrite lookup_empty in Hs. discriminate.
      + intros sid _. cbn. now rewrite lookup_empty.
    - destruct IH as [Hm Hn].
      exact (step_histories sys sys' (reachable_consistent ext sys Hr) Hm Hn Hstep). }
  intros sid s Hs. unfold get_chat_history. rewrite Hs. cbn [fst].
  f_equal. now apply (proj1 H).
Qed.

End Histories.



Lemma chat_records_turns_witness :
  exists session,
    Backend.sessions (served ext_answering) !! "s1" = Some session
    /\ fst (Backend.get_chat_history ext_answering "s1"
              (snd (Backend.chat ext_answering question (served ext_answering))))
       = Ok (default [] (Backend.chat_history session)
             ++ [ {| Backend.role := "user";
                     Backend.content := "What was the revenue growth?" |};
                  {| Backend.role := "assistant";
                     Backend.content := "Revenue grew 12%." |} ]).
Proof.
  destruct (chat_records_turns ext_answering question (served ext_answering) answered
              ltac:(vm_compute; reflexivity))
    as (session & Hs & Hget & _).
  exists session. split; [exact Hs|exact Hget].
Defined.

(** ** Shutdown: [src/backend/main.py] *)

Section Shutdown.
Context (ext : Externals).
Import Backend.

(** The loop of [lifespan] after the [yield]: the upload directory of every
    session is removed.  The sessions are visited in the order of
    [map_to_list]; the disk that results does not depend on the order (see
    [shutdown_cleanup]). *)
Definition lifespan_shutdown (w : World ext) : World ext :=
  with_disk
    (fold_left (fun fs '(_, session) => rmtree fs (temp_dir session))
       (map_to_list (sessions w)) (disk w))
    w.

Lemma rmtree_fold (l : list (string * Session)) (fs : FileSystem) (path : string) :
  fold_left (fun fs '(_, session) => rmtree fs (temp_dir session)) l fs path
  = if existsb (fun '(_, session) => under (temp_dir session) path) l
    then None else fs path.
Proof.
  revert fs. induction l as [|[sid s] l IH]; intros fs; cbn [fold_left existsb].
  - reflexivity.
  - rewrite IH. unfold rmtree, under.
    destruct (existsb _ l); [now rewrite orb_true_r|].
    rewrite orb_false_r. reflexivity.
Qed.


End Shutdown.

(** ** The Streamlit application: [src/app.py] *)

Module App.

(** [st.session_state] once the script has initialised it (lines 23-33). *)
Record SessionState := {
  ss_chat_history : list Backend.Turn;
  ss_store : gmap string (list Message);
  ss_temp_dir : string;
  ss_temp_db_path : string;
  ss_db_ready : bool
}.

(** Lines 23-33 on an empty session state; [dir] is what [tempfile.mkdtemp()]
    returns. *)
Definition fresh_state (dir : string) : SessionState :=
  {| ss_chat_history := [];
     ss_store := ∅;
     ss_temp_dir := dir;
     ss_temp_db_path := os_path_join dir "chroma_db";
     ss_db_ready := false |}.

(** What the script shows. *)
Inductive Ui :=
| ChatMarkdown (role body : string)
| ChatWarning (body : string)
| ExpanderMarkdown (body : string)
| ExpanderImage (path caption : string)
| ErrorBox (body : string).

Definition with_chat_history (v : list Backend.Turn) (st : SessionState) : SessionState :=
  {| ss_chat_history := v; ss_store := ss_store st; ss_temp_dir := ss_temp_dir st;
     ss_temp_db_path := ss_temp_db_path st; ss_db_ready := ss_db_ready st |}.

Definition with_store (v : gmap string (list Message)) (st : SessionState) : SessionState :=
  {| ss_chat_history := ss_chat_history st; ss_store := v; ss_temp_dir := ss_temp_dir st;
     ss_temp_db_path := ss_temp_db_path st; ss_db_ready := ss_db_ready st |}.

Definition with_db_ready (v : bool) (st : SessionState) : SessionState :=
  {| ss_chat_history := ss_chat_history st; ss_store := ss_store st;
     ss_temp_dir := ss_temp_dir st; ss_temp_db_path := ss_temp_db_path st;
     ss_db_ready := v |}.

(** [open(path, "wb").write(bytes)] *)
Definition write_file (fs : FileSystem) (path bytes : string) : FileSystem :=
  fun q => if String.eqb q path then Some (File bytes) else fs q.

(** Lines 49-63, run when a file is uploaded, the store is not ready and the
    button is pressed.  Nothing is caught: an exception leaves the session
    state as it was. *)
Definition process_pdf (ext : Externals) (uploaded_file : string) (st : SessionState)
    (fs : FileSystem) : Result (SessionState * Chroma (Vector ext) * FileSystem) :=
  let temp_pdf_path := os_path_join (ss_temp_dir st) "temp.pdf" in
  let fs := write_file fs temp_pdf_path uploaded_file in
  let temp_img_dir := os_path_join (ss_temp_dir st) "images" in
  fs ← os_makedirs fs temp_img_dir;
  '(texts, tables, fs) ← Legacy.load_pdf_elements ext fs temp_pdf_path temp_img_dir;
  '(img_summaries, img_paths) ← Legacy.generate_image_summaries ext fs temp_img_dir;
  let vectorstore :=
    Legacy.create_vector_db ext texts img_summaries img_paths (ss_temp_db_path st) in
  mret (with_db_ready true st, vectorstore, fs).

(** The loop of lines 126-131 from source number [i + 1] on: what is shown,
    and the exception that ended the loop, if any. *)
Fixpoint show_sources (i : nat) (docs : list Document) : list Ui * option Exception :=
  match docs with
  | [] => ([], None)
  | doc :: rest =>
      let source_type := default "unknown" (metadata doc !! "source") in
      let shown :=
        [ ExpanderMarkdown ("**Source " +:+ pretty (i + 1) +:+ " (" +:+ source_type +:+ "):**");
          ExpanderMarkdown ("> " +:+ slice_to 200 (page_content doc) +:+ "...") ] in
      if String.eqb source_type "image"
      then match metadata doc !! "image_path" with
           | None => (shown, Some (KeyError "image_path"))
           | Some path =>
               let '(more, e) := show_sources (S i) rest in
               (shown ++ [ExpanderImage path "Found Chart"] ++ more, e)
           end
      else let '(more, e) := show_sources (S i) rest in (shown ++ more, e)
  end.

(** [st.error(f"Error: {e}")] *)
Definition error_box (e : Exception) : Ui := ErrorBox ("Error: " +:+ exc_str e).

(** Lines 85-134: one question typed into the chat input. *)
Definition handle_input (ext : Externals) (user_input : string) (st : SessionState)
    : SessionState * list Ui :=
  let shown := [ChatMarkdown "user" user_input] in
  let st :=
    with_chat_history
      (ss_chat_history st ++ [ {| Backend.role := "user"; Backend.content := user_input |} ])
      st in
  if negb (ss_db_ready st)
  then (st, shown ++ [ChatWarning "⚠️ Please upload and process a PDF first."])
  else
    let rag_chain := Legacy.get_rag_chain (ss_temp_db_path st) in
    let history := default [] (ss_store st !! "current_session") in
    let st :=
      match ss_store st !! "current_session" with
      | None => with_store (<["current_session" := []]> (ss_store st)) st
      | Some _ => st
      end in
    match chain_invoke ext rag_chain history user_input with
    | Raise e => (st, shown ++ [error_box e])
    | Ok response =>
        let st :=
          with_store
            (<["current_session" :=
                 history ++ [HumanMessage user_input; AIMessage (answer response)]]>
               (ss_store st)) st in
        let answer_text := answer response in
        let shown := shown ++ [ChatMarkdown "assistant" answer_text] in
        let st :=
          with_chat_history
            (ss_chat_history st
             ++ [ {| Backend.role := "assistant"; Backend.content := answer_text |} ])
            st in
        match context response with
        | None => (st, shown ++ [error_box (KeyError "context")])
        | Some docs =>
            let '(sources_shown, e) := show_sources 0 docs in
            (st, shown ++ sources_shown
                 ++ match e with Some e => [error_box e] | None => [] end)
        end
    end.

(** Lines 68-73, "Clear & Restart": the directory is removed, every key is
    deleted, and the rerun initialises the state again with a new directory. *)
Definition clear_and_restart (new_dir : string) (st : SessionState) (fs : FileSystem)
    : SessionState * FileSystem :=
  (fresh_state new_dir, Backend.rmtree fs (ss_temp_dir st)).

End App.

Section AppFacts.
Context (ext : Externals).
Import App.

(** The call the script makes to the chain for [user_input] in state [st]. *)
Definition app_chain_call (user_input : string) (st : SessionState) : Result ChainResponse :=
  chain_invoke ext (Legacy.get_rag_chain (ss_temp_db_path st))
    (default [] (ss_store st !! "current_session")) user_input.

Definition user_turn (user_input : string) : Backend.Turn :=
  {| Backend.role := "user"; Backend.content := user_input |}.

Definition assistant_turn (answer_text : string) : Backend.Turn :=
  {| Backend.role := "assistant"; Backend.content := answer_text |}.


(** A document of the context can be shown: it is no image, or it has a path. *)
Definition showable (doc : Document) : Prop :=
  default "unknown" (metadata doc !! "source") = "image" ->
  is_Some (metadata doc !! "image_path").

(** The line the expander shows for a document. *)
Definition quote_of (doc : Document) : Ui :=
  ExpanderMarkdown ("> " +:+ slice_to 200 (page_content doc) +:+ "...").

Lemma show_sources_all (docs : list Document) :
  forall i,
    Forall showable docs ->
    snd (show_sources i docs) = None
    /\ forall doc, In doc docs -> In (quote_of doc) (fst (show_sources i docs)).
Proof.
  induction docs as [|doc rest IH]; intros i Hall.
  - split; [reflexivity|]. intros doc [].
  - inversion Hall as [|? ? Hdoc Hrest]; subst.
    destruct (IH (S i) Hrest) as [Hnone Hin].
    cbn [show_sources].
    destruct (String.eqb_spec (default "unknown" (metadata doc !! "source")) "image")
      as [Himg|Himg].
    + destruct (Hdoc Himg) as [path Hpath]. rewrite Hpath.
      destruct (show_sources (S i) rest) as [more e]. cbn [fst snd] in *.
      split; [exact Hnone|].
      intros d [<-|Hd].
      * right. left. reflexivity.
      * right. right. right. now apply Hin.
    + destruct (show_sources (S i) rest) as [more e]. cbn [fst snd] in *.
      split; [exact Hnone|].
      intros d [<-|Hd].
      * right. left. reflexivity.
      * right. right. now apply Hin.
Qed.

Lemma quote_len (doc : Document) :
  len ("> " +:+ slice_to 200 (page_content doc) +:+ "...") <= 205.
Proof.
  rewrite !len_append, len_slice_to.
  change (len "> ") with 2. change (len "...") with 3. lia.
Qed.


End AppFacts.

(** When the processing of the Streamlit application returns, the store is
    marked ready and the history is untouched; the store was built in the
    session's store directory with the model ["all-MiniLM-L6-v2"], and it
    holds one document per text chunk of the parse, in order, each tagged
    source=text and without an image path: the summaries the vision model
    returned for the images are not in it. *)
Theorem streamlit_process_stores_texts (ext : Externals) (uploaded_file : string)
    (st st' : App.SessionState) (fs fs' : FileSystem) (store : Chroma (Vector ext)) :
  App.process_pdf ext uploaded_file st fs = Ok (st', store, fs') ->
  st' = App.with_db_ready true st
  /\ persist_directory store = App.ss_temp_db_path st
  /\ embedding_function store = fixed_model
  /\ exists texts tables img_summaries img_paths fs1 fs2,
       Legacy.load_pdf_elements ext fs1 (os_path_join (App.ss_temp_dir st) "temp.pdf")
         (os_path_join (App.ss_temp_dir st) "images") = Ok (texts, tables, fs2)
       /\ Legacy.generate_image_summaries ext fs2
            (os_path_join (App.ss_temp_dir st) "images") = Ok (img_summaries, img_paths)
       /\ map (fun entry => page_content (fst entry)) (collection store) = texts
       /\ Forall (fun entry =>
                    metadata (fst entry) !! "source" = Some "text"
                    /\ metadata (fst entry) !! "image_path" = None)
            (collection store).
Proof.
  unfold App.process_pdf.
  destruct (os_makedirs _ _) as [fs1|e]; [|discriminate]. cbn [mbind result_bind].
  destruct (Legacy.load_pdf_elements ext fs1 _ _) as [[[texts tables] fs2]|e] eqn:Hload;
    [|discriminate].
  cbn [mbind result_bind].
  destruct (Legacy.generate_image_summaries ext fs2 _) as [[sums paths]|e] eqn:Hsum;
    [|discriminate].
  cbn [mbind result_bind mret result_ret].
  intros H. injection H as <- <- <-.
  split; [reflexivity|]. split; [reflexivity|]. split; [reflexivity|].
  exists texts, tables, sums, paths, fs1, fs2.
  split; [exact Hload|]. split; [exact Hsum|].
  unfold Legacy.create_vector_db. cbn [collection Chroma_from_documents]. split.
  - rewrite !map_map. cbn [fst page_content]. apply map_id.
  - clear Hload. induction texts as [|t l IH]; cbn [map]; constructor;
      [split; reflexivity|exact IH].
Qed.

(** The state of the Streamlit application once a document is processed. *)
Definition app_ready : App.SessionState := App.with_db_ready true (App.fresh_state "/tmp/t1").

Definition app_processed :
    Result (App.SessionState * Chroma (Vector ext_charts) * FileSystem) :=
  App.process_pdf ext_charts "%PDF-1.7" (App.fresh_state "/tmp/t1") no_images.

Lemma streamlit_process_stores_texts_witness :
  exists store fs',
    app_processed = Ok (app_ready, store, fs')
    /\ exists img_summaries img_paths fs2,
         Legacy.generate_image_summaries ext_charts fs2 (os_path_join "/tmp/t1" "images")
           = Ok (img_summaries, img_paths)
         /\ Forall (fun entry => metadata (fst entry) !! "source" = Some "text"
                                 /\ metadata (fst entry) !! "image_path" = None)
              (collection store).
Proof.
  pose (store := match app_processed with
                 | Ok (_, s, _) => s
                 | Raise _ => Legacy.create_vector_db ext_charts [] [] [] ""
                 end).
  pose (fs' := match app_processed with
               | Ok (_, _, f) => f
               | Raise _ => no_images
               end).
  assert (Hrun : app_processed = Ok (app_ready, store, fs')) by (vm_compute; reflexivity).
  destruct (streamlit_process_stores_texts ext_charts "%PDF-1.7" (App.fresh_state "/tmp/t1")
              app_ready no_images fs' store Hrun)
    as (_ & _ & _ & texts & tables & sums & paths & fs1 & fs2 & _ & Hsum & _ & Htags).
  exists store, fs'. split; [exact Hrun|].
  exists sums, paths, fs2. split; [exact Hsum|exact Htags].
Defined.


Lemma seven_docs_showable : Forall showable seven_docs.
Proof.
  repeat constructor; intros H; vm_compute in H; discriminate.
Defined.


(** ** Edge cases of the builder and of the chat handler *)


(** A chat request for a session marked ready whose store directory is not
    set yet (the state between lines 51 and 53 of [process_pdf_background])
    is answered with status 500 and the text of the [KeyError]; the chain is
    not called and the world is unchanged. *)
Theorem chat_without_store (ext : Externals) (request : Backend.ChatRequest)
    (w : Backend.World ext) (session : Backend.Session) :
  Backend.sessions w !! Backend.req_session_id request = Some session ->
  Backend.status session = "ready" ->
  Backend.db_path session = None ->
  Backend.chat ext request w = (Raise (HTTPException 500 "'db_path'"), w).
Proof.
  intros Hs Hr Hdb. rewrite (chat_ready ext request w session) by assumption.
  unfold Backend.try_except, Backend.chat_try. rewrite Hdb. reflexivity.
Qed.

Definition half_ready (ext : Externals) : Backend.World ext :=
  Backend.with_sessions {[ "s1" := Backend.set_status "ready" uploaded_session ]}
    (Backend.world (Backend.initial ext)).

Lemma chat_without_store_witness :
  Backend.chat ext_answering question (half_ready ext_answering)
  = (Raise (HTTPException 500 "'db_path'"), half_ready ext_answering).
Proof.
  apply (chat_without_store ext_answering question (half_ready ext_answering)
           (Backend.set_status "ready" uploaded_session)); reflexivity.
Defined.

(** The service after the sample session was asked one question. *)
Definition asked (ext : Externals) : Backend.System ext :=
  {| Backend.world := snd (Backend.chat ext question (Backend.world (sample_system ext)));
     Backend.tasks := Backend.tasks (sample_system ext) |}.

Lemma asked_reachable (ext : Externals) : Backend.reachable ext (asked ext).
Proof.
  eapply Backend.reachable_step; [apply sample_system_reachable|].
  eapply Backend.step_chat. apply surjective_pairing.
Qed.

Lemma histories_agree_witness :
  fst (Backend.get_chat_history ext_answering "s1" (Backend.world (asked ext_answering)))
  = Ok (map turn_of [HumanMessage "What was the revenue growth?";
                     AIMessage "Revenue grew 12%."]).
Proof.
  rewrite (histories_agree ext_answering (asked ext_answering)
             (asked_reachable ext_answering) "s1"
             (Backend.append_turns "What was the revenue growth?" "Revenue grew 12%."
                served_session)
             ltac:(vm_compute; reflexivity)).
  vm_compute. reflexivity.
Defined.
